(** * RigelEngine: the in-game mode controller and the debug overlay

    A shallow embedding of [src/ingame_mode.cpp] (class [IngameMode]) and of
    the debugging system ([DebuggingSystem], [colorForEntity]).

    C++ [int] values are tile or pixel coordinates; they are modelled as [Z],
    within [INT_MIN .. INT_MAX], and the additions and subtractions of the
    source are 32-bit two's complement operations ([int_add], [int_sub]): a
    result outside the range wraps around.  Everything the two translation
    units take from headers that are not part of the sources is a field of
    one of the interface classes below, so that every general theorem holds
    for all of its implementations. *)

From Stdlib Require Import ZArith List Bool Lia.
From Stdlib Require String Ascii DecimalString.
Import ListNotations.
Open Scope Z_scope.

(** ** int *)

Definition INT_MIN : Z := -2147483648.
Definition INT_MAX : Z := 2147483647.

(** The value of type [int] that a mathematical result is stored as. *)
Definition toInt (z : Z) : Z :=
  (z + 2147483648) mod 4294967296 - 2147483648.

Definition int_add (a b : Z) : Z := toInt (a + b).
Definition int_sub (a b : Z) : Z := toInt (a - b).
Arguments int_add : simpl never.
Arguments int_sub : simpl never.

Definition isInt (z : Z) : Prop := INT_MIN <= z <= INT_MAX.

(** ** base: points, extents, rectangles, colours *)

Module base.
Record Vector := mkVector { x : Z; y : Z }.

Record Size := mkSize { width : Z; height : Z }.

(** [base::Rect<int>]: the members [topLeft] and [size] are read directly
    by the debugging system. *)
Record Rect := mkRect { topLeft : Vector; size : Size }.

Record Color := mkColor { red : Z; green : Z; blue : Z; alpha : Z }.
End base.
Import base.

Definition BoundingBox := Rect.
Definition WorldPosition := Vector.

(** [operator-] on points. *)
Definition Vector_sub (a b : Vector) : Vector :=
  mkVector (int_sub (x a) (x b)) (int_sub (y a) (y b)).

(** ** data::map *)

Module SolidEdge.
Inductive t := top | right | bottom | left.
End SolidEdge.

(** Collision data of one tile, observed through [isSolidOn]. *)
Definition CollisionData := SolidEdge.t -> bool.

Definition isSolidOn (c : CollisionData) (e : SolidEdge.t) : bool := c e.

Record TileAttributes := mkTileAttributes {
  isClimbable : bool;
  isLadder : bool;
  isFlammable : bool
}.

(** The map as the two translation units observe it: its extents
    ([width()] and [height()]) and the two per-tile queries.  The queries
    are only meaningful inside the grid. *)
Module Map.
Record t := mk {
  width : Z;
  height : Z;
  collisionData : Z -> Z -> CollisionData;
  attributes : Z -> Z -> TileAttributes
}.
End Map.

(** ** Enumerations declared in headers outside the sources *)

(** Modelled from the spec: the enumeration [player::PlayerState] is declared
    in a header that is not part of the sources; the code names only [Dead],
    the other states are the ones the specification lists. *)
Inductive PlayerState := Standing | Walking | Jumping | Attacking | Dead.

Definition PlayerState_eqb (a b : PlayerState) : bool :=
  match a, b with
  | Standing, Standing | Walking, Walking | Jumping, Jumping
  | Attacking, Attacking | Dead, Dead => true
  | _, _ => false
  end.

(** Modelled from the spec: [TriggerType] is an enumeration that includes
    [LevelExit]; its other members are not named by the code. *)
Inductive TriggerType := LevelExit | OtherTrigger (tag : nat).

Definition isLevelExit (t : TriggerType) : bool :=
  match t with LevelExit => true | OtherTrigger _ => false end.

(** ** Types the controller only passes around *)

Class GameTypes := {
  (** [engine::TimeDelta], a floating point number of seconds *)
  TimeDelta : Type;
  (** the literal [0] of [updateAndRender(0)] *)
  zeroDelta : TimeDelta;
  (** [base::Point<float>], the velocity of [Physical] *)
  Velocity : Type;
  (** [data::PlayerModel] and its public member [mHealth] *)
  PlayerModel : Type;
  mHealth : PlayerModel -> Z;
  (** the actor descriptors of a loaded level *)
  ActorDescription : Type;
  (** whatever else the systems keep between frames *)
  Env : Type
}.

Section Entities.
Context `{GT : GameTypes}.

(** An entity: an identifier and the component fragments the two
    translation units ask for.  [None] / [false] is "not attached". *)
Record Entity := mkEntity {
  entityId : nat;
  worldPosition : option WorldPosition;
  boundingBox : option BoundingBox;
  physical : option Velocity;
  playerControlled : option PlayerState;
  playerDamaging : bool;
  solidBody : bool;
  mapGeometryLink : option Rect;
  trigger : option TriggerType
}.

(** [entityx::EntityManager]: the entities in iteration order. *)
Definition EntityManager := list Entity.

(** Resolving an entity handle. *)
Definition findEntity (es : EntityManager) (id : nat) : option Entity :=
  find (fun e => Nat.eqb (entityId e) id) es.
End Entities.

(** ** Helpers from headers outside the sources *)

Class EngineHelpers := {
  (** data/game_traits.hpp *)
  mapViewPortWidthTiles : Z;
  mapViewPortHeightTiles : Z;
  (** data/unit_conversions.hpp *)
  tilesToPixels : Z -> Z;
  tileVectorToPixelVector : Vector -> Vector;
  tileExtentsToPixelExtents : Size -> Size;
  (** base/spatial_types.hpp: edges of a rectangle, [makeRect] *)
  Rect_left : Rect -> Z;
  Rect_right : Rect -> Z;
  Rect_bottom : Rect -> Z;
  makeRect : Vector -> Vector -> Rect;
  (** engine/physical_components.hpp *)
  toWorldSpace : BoundingBox -> WorldPosition -> BoundingBox;
  (** data/map.hpp: [v >= mpMap->width()] and [v >= mpMap->height()] for an
      [int] [v].  The return type of [width()] and [height()] is declared
      outside the sources: the comparison is the signed one if that type is
      signed, and it is made after the conversion of [v] if the type is
      unsigned.  Either way an [int] that does not reach the extent is
      below it. *)
  reachesExtent : Z -> Z -> bool;
  reachesExtent_below :
    forall v extent, isInt v -> reachesExtent v extent = false -> v < extent
}.

(** ** The debugging system *)

(** Calls on the renderer. *)
Inductive RenderCall :=
| drawLine (x1 y1 x2 y2 : Z) (c : Color)
| drawRectangle (r : Rect) (c : Color).

(** What one [DebuggingSystem::update] does to its collaborators, in program
    order: queries of the map and calls on the renderer. *)
Inductive Effect :=
| QueryCollisionData (col row : Z)
| QueryAttributes (col row : Z)
| Render (c : RenderCall).

(** The data members of [DebuggingSystem] that the toggles flip. *)
Record DebuggingSystem := mkDebuggingSystem {
  mShowBoundingBoxes : bool;
  mShowWorldCollisionData : bool;
  mShowGrid : bool
}.

Definition toggleBoundingBoxDisplay (d : DebuggingSystem) : DebuggingSystem :=
  mkDebuggingSystem
    (negb (mShowBoundingBoxes d)) (mShowWorldCollisionData d) (mShowGrid d).

Definition toggleWorldCollisionDataDisplay (d : DebuggingSystem)
  : DebuggingSystem :=
  mkDebuggingSystem
    (mShowBoundingBoxes d) (negb (mShowWorldCollisionData d)) (mShowGrid d).

Definition toggleGridDisplay (d : DebuggingSystem) : DebuggingSystem :=
  mkDebuggingSystem
    (mShowBoundingBoxes d) (mShowWorldCollisionData d) (negb (mShowGrid d)).

(** [for (int i = 0; i < n; ++i)]: the values [i] takes. *)
Definition upTo (n : Z) : list Z := map Z.of_nat (seq 0 (Z.to_nat n)).

Section Debugging.
Context `{GT : GameTypes} `{EH : EngineHelpers}.

Definition colorForEntity (entity : Entity) : Color :=
  let isPlayerDamaging := playerDamaging entity in
  let isSolidBody := solidBody entity in
  if isPlayerDamaging then mkColor 255 0 0 255
  else if isSolidBody then mkColor 255 255 0 255
  else mkColor 0 255 0 255.

(** The body of the two nested loops of the world-collision pass, for the
    view-port tile [(x, y)]. *)
Definition collisionPassTile (cameraPos : Vector) (m : Map.t) (x y : Z)
  : list Effect :=
  let drawColor := mkColor 255 255 0 255 in
  let col := int_add x (base.x cameraPos) in
  let row := int_add y (base.y cameraPos) in
  if reachesExtent col (Map.width m) || reachesExtent row (Map.height m)
  then []
  else
    let collisionData := Map.collisionData m col row in
    let topLeft := tileVectorToPixelVector (mkVector x y) in
    let bottomRight :=
      tileVectorToPixelVector (mkVector (int_add x 1) (int_add y 1)) in
    let left := base.x topLeft in
    let top := base.y topLeft in
    let right := base.x bottomRight in
    let bottom := base.y bottomRight in
    let visualizationInfos :=
      [ (SolidEdge.top, (left, top, right, top));
        (SolidEdge.right, (right, top, right, bottom));
        (SolidEdge.bottom, (left, bottom, right, bottom));
        (SolidEdge.left, (left, top, left, bottom)) ] in
    let tileBox := makeRect topLeft bottomRight in
    [QueryCollisionData col row]
    ++ flat_map
         (fun info =>
            if isSolidOn collisionData (fst info) then
              let '(x1, y1, x2, y2) := snd info in
              [Render (drawLine x1 y1 x2 y2 drawColor)]
            else [])
         visualizationInfos
    ++ [QueryAttributes col row; QueryAttributes col row;
        QueryAttributes col row]
    ++ (if isClimbable (Map.attributes m col row)
        then [Render (drawRectangle tileBox (mkColor 255 100 255 220))]
        else [])
    ++ (if isLadder (Map.attributes m col row)
        then [Render (drawRectangle tileBox (mkColor 0 100 255 220))]
        else [])
    ++ (if isFlammable (Map.attributes m col row)
        then [Render (drawRectangle tileBox (mkColor 255 127 0 220))]
        else []).

Definition worldCollisionPass (cameraPos : Vector) (m : Map.t)
  : list Effect :=
  flat_map
    (fun y =>
       flat_map (fun x => collisionPassTile cameraPos m x y)
                (upTo mapViewPortWidthTiles))
    (upTo mapViewPortHeightTiles).

(** [es.each<WorldPosition, BoundingBox>(...)] *)
Definition entityBoxPass (cameraPos : Vector) (es : EntityManager)
  : list Effect :=
  flat_map
    (fun entity =>
       match worldPosition entity, boundingBox entity with
       | Some pos, Some bbox =>
           let worldToScreenPx := tileVectorToPixelVector cameraPos in
           let worldSpaceBox := toWorldSpace bbox pos in
           let boxInPixels :=
             mkRect
               (Vector_sub (tileVectorToPixelVector (topLeft worldSpaceBox))
                           worldToScreenPx)
               (tileExtentsToPixelExtents (size worldSpaceBox)) in
           [Render (drawRectangle boxInPixels (colorForEntity entity))]
       | _, _ => []
       end)
    es.

(** [es.each<WorldPosition, MapGeometryLink>(...)] *)
Definition geometryLinkPass (cameraPos : Vector) (es : EntityManager)
  : list Effect :=
  flat_map
    (fun entity =>
       match worldPosition entity, mapGeometryLink entity with
       | Some pos, Some mLinkedGeometrySection =>
           let worldToScreenPx := tileVectorToPixelVector cameraPos in
           let boxInPixels :=
             mkRect
               (Vector_sub
                  (tileVectorToPixelVector (topLeft mLinkedGeometrySection))
                  worldToScreenPx)
               (tileExtentsToPixelExtents (size mLinkedGeometrySection)) in
           [Render (drawRectangle boxInPixels (mkColor 0 255 255 190))]
       | _, _ => []
       end)
    es.

Definition boundingBoxPass (cameraPos : Vector) (es : EntityManager)
  : list Effect :=
  entityBoxPass cameraPos es ++ geometryLinkPass cameraPos es.

Definition gridPass : list Effect :=
  let drawColor := mkColor 255 255 255 190 in
  let maxX := tilesToPixels mapViewPortWidthTiles in
  let maxY := tilesToPixels mapViewPortHeightTiles in
  map (fun y => let pxY := tilesToPixels y in
                Render (drawLine 0 pxY maxX pxY drawColor))
      (upTo mapViewPortHeightTiles)
  ++ map (fun x => let pxX := tilesToPixels x in
                   Render (drawLine pxX 0 pxX maxY drawColor))
         (upTo mapViewPortWidthTiles).

(** [DebuggingSystem::update]: [cameraPos] is [*mpCameraPos], [m] is
    [*mpMap]. *)
Definition DebuggingSystem_update
    (d : DebuggingSystem) (cameraPos : Vector) (m : Map.t)
    (es : EntityManager) : list Effect :=
  (if mShowWorldCollisionData d then worldCollisionPass cameraPos m else [])
  ++ (if mShowBoundingBoxes d then boundingBoxPass cameraPos es else [])
  ++ (if mShowGrid d then gridPass else []).

(** The tiles whose collision data or attributes an effect list reads. *)
Definition queriedTiles (effects : list Effect) : list (Z * Z) :=
  flat_map
    (fun e =>
       match e with
       | QueryCollisionData col row => [(col, row)]
       | QueryAttributes col row => [(col, row)]
       | Render _ => []
       end)
    effects.

(** The calls an effect list makes on the renderer. *)
Definition renderCalls (effects : list Effect) : list RenderCall :=
  flat_map
    (fun e => match e with Render c => [c] | _ => [] end)
    effects.
End Debugging.

(** ** What the controller shares with its systems *)

(** [PlayerInputState]: level-triggered flags, set on key-down and cleared on
    key-up. *)
Record PlayerInputState := mkPlayerInputState {
  mMovingUp : bool;
  mMovingDown : bool;
  mMovingLeft : bool;
  mMovingRight : bool;
  mJumping : bool;
  mShooting : bool
}.

(** The systems registered by [loadLevel], in the order of the [update]
    calls of [updateAndRender]. *)
Module SystemId.
Inductive t :=
| ElevatorSystem
| PlayerMovementSystem
| AttackSystem
| PlayerInteractionSystem
| SecurityCameraSystem
| PhysicsSystem
| DamageSystem
| DamageInflictionSystem
| AnimationSystem
| MapScrollSystem
| RenderingSystem
| DebuggingSystem.
End SystemId.

Section WorldState.
Context `{GT : GameTypes}.

(** The state the systems were handed pointers to in [loadLevel]: the
    entity manager, the map of the level data, the player model, the scroll
    offset, the renderer (as the calls made on it so far), and [env]. *)
Record World := mkWorld {
  entities : EntityManager;
  mMap : Map.t;
  mPlayerModel : PlayerModel;
  mScrollOffset : Vector;
  rendered : list RenderCall;
  env : Env
}.

Definition setEntities (es : EntityManager) (w : World) : World :=
  mkWorld es (mMap w) (mPlayerModel w) (mScrollOffset w) (rendered w)
          (env w).

Definition setMap (m : Map.t) (w : World) : World :=
  mkWorld (entities w) m (mPlayerModel w) (mScrollOffset w) (rendered w)
          (env w).

Definition setPlayerModel (p : PlayerModel) (w : World) : World :=
  mkWorld (entities w) (mMap w) p (mScrollOffset w) (rendered w) (env w).

Definition setRendered (r : list RenderCall) (w : World) : World :=
  mkWorld (entities w) (mMap w) (mPlayerModel w) (mScrollOffset w) r
          (env w).

Definition setEnv (v : Env) (w : World) : World :=
  mkWorld (entities w) (mMap w) (mPlayerModel w) (mScrollOffset w)
          (rendered w) v.
End WorldState.

(** The systems and the entity factory are defined outside the sources.  A
    system reads the input flags (the movement system holds a pointer to
    them, the attack and elevator systems get a copy through
    [setInputState]) and transforms the world; it has no access to the
    private members of the controller.  The factory adds entities to the
    manager it was constructed with and returns the handle of the player. *)
Class GameSystems `{GT : GameTypes} := {
  system_setInputState : SystemId.t -> PlayerInputState -> World -> World;
  system_update :
    SystemId.t -> TimeDelta -> PlayerInputState -> World -> World;
  hud_updateAndRender : TimeDelta -> World -> World;
  createEntitiesForLevel :
    list ActorDescription -> EntityManager -> Env -> EntityManager * Env * nat
}.

(** The calls [updateAndRender] makes, to its collaborators and to the two
    end-of-frame checks, in program order. *)
Module Call.
Inductive t `{GT : GameTypes} :=
| setInputState (sys : SystemId.t) (inputs : PlayerInputState)
| update (sys : SystemId.t) (dt : TimeDelta)
| bindRenderTarget
| hudUpdateAndRender (dt : TimeDelta)
| unbindRenderTarget
| renderTargetRender
| showDebugText (scroll playerPos : Vector) (playerVel : Velocity)
| checkForPlayerDeath
| checkForLevelExitReached
| fadeOutScreen
| entitiesReset
| createEntitiesForLevel
| fadeInScreen.
End Call.

(** The result of running controller code: a new state, a dereference of a
    component that is not attached (undefined behaviour in the source), or
    a call depth beyond the fuel. *)
Inductive Outcome (A : Type) :=
| Done (a : A)
| ContractViolation
| OutOfFuel.
Arguments Done {A} a.
Arguments ContractViolation {A}.
Arguments OutOfFuel {A}.

Definition bind {A B : Type} (m : Outcome A) (k : A -> Outcome B)
  : Outcome B :=
  match m with
  | Done a => k a
  | ContractViolation => ContractViolation
  | OutOfFuel => OutOfFuel
  end.

Notation "v <- m ;; k" := (bind m (fun v => k))
  (at level 61, m at next level, right associativity).

(** [*handle.get()] *)
Definition deref {A : Type} (component : option A) : Outcome A :=
  match component with
  | Some a => Done a
  | None => ContractViolation
  end.

(** SDL events, as far as [handleEvent] looks at them. *)
Inductive EventType := SDL_KEYDOWN | SDL_KEYUP | SDL_OTHER_EVENT.

Inductive Keycode :=
| SDLK_UP | SDLK_DOWN | SDLK_LEFT | SDLK_RIGHT
| SDLK_LCTRL | SDLK_RCTRL | SDLK_LALT | SDLK_RALT
| SDLK_b | SDLK_c | SDLK_d
| SDLK_OTHER (code : nat).

Record SDL_Event := mkEvent { event_type : EventType; keysym_sym : Keycode }.

Definition isKeyDown (t : EventType) : bool :=
  match t with SDL_KEYDOWN => true | _ => false end.

Definition isKeyUp (t : EventType) : bool :=
  match t with SDL_KEYUP => true | _ => false end.

(** ** The mode controller *)

Section Controller.
Context `{GT : GameTypes} `{EH : EngineHelpers} `{GS : @GameSystems GT}.

(** The data members of [IngameMode] that the member functions read or
    write, and [mCalls], the calls made so far. *)
Record IngameMode := mkIngameMode {
  mWorld : World;
  mPlayerEntity : nat;
  mPlayerInputs : PlayerInputState;
  mInitialActors : list ActorDescription;
  mMapAtLevelStart : Map.t;
  mPlayerModelAtLevelStart : PlayerModel;
  mLevelFinished : bool;
  mShowDebugText : bool;
  mDebuggingSystem : DebuggingSystem;
  mCalls : list Call.t
}.

Definition withWorld (f : World -> World) (s : IngameMode) : IngameMode :=
  mkIngameMode (f (mWorld s)) (mPlayerEntity s) (mPlayerInputs s)
    (mInitialActors s) (mMapAtLevelStart s) (mPlayerModelAtLevelStart s)
    (mLevelFinished s) (mShowDebugText s) (mDebuggingSystem s) (mCalls s).

Definition setPlayerEntity (id : nat) (s : IngameMode) : IngameMode :=
  mkIngameMode (mWorld s) id (mPlayerInputs s)
    (mInitialActors s) (mMapAtLevelStart s) (mPlayerModelAtLevelStart s)
    (mLevelFinished s) (mShowDebugText s) (mDebuggingSystem s) (mCalls s).

Definition setPlayerInputs (i : PlayerInputState) (s : IngameMode)
  : IngameMode :=
  mkIngameMode (mWorld s) (mPlayerEntity s) i
    (mInitialActors s) (mMapAtLevelStart s) (mPlayerModelAtLevelStart s)
    (mLevelFinished s) (mShowDebugText s) (mDebuggingSystem s) (mCalls s).

Definition setLevelFinished (b : bool) (s : IngameMode) : IngameMode :=
  mkIngameMode (mWorld s) (mPlayerEntity s) (mPlayerInputs s)
    (mInitialActors s) (mMapAtLevelStart s) (mPlayerModelAtLevelStart s)
    b (mShowDebugText s) (mDebuggingSystem s) (mCalls s).

Definition setShowDebugText (b : bool) (s : IngameMode) : IngameMode :=
  mkIngameMode (mWorld s) (mPlayerEntity s) (mPlayerInputs s)
    (mInitialActors s) (mMapAtLevelStart s) (mPlayerModelAtLevelStart s)
    (mLevelFinished s) b (mDebuggingSystem s) (mCalls s).

Definition setDebuggingSystem (d : DebuggingSystem) (s : IngameMode)
  : IngameMode :=
  mkIngameMode (mWorld s) (mPlayerEntity s) (mPlayerInputs s)
    (mInitialActors s) (mMapAtLevelStart s) (mPlayerModelAtLevelStart s)
    (mLevelFinished s) (mShowDebugText s) d (mCalls s).

(** Appends a call to the record of calls. *)
Definition called (c : Call.t) (s : IngameMode) : IngameMode :=
  mkIngameMode (mWorld s) (mPlayerEntity s) (mPlayerInputs s)
    (mInitialActors s) (mMapAtLevelStart s) (mPlayerModelAtLevelStart s)
    (mLevelFinished s) (mShowDebugText s) (mDebuggingSystem s)
    (mCalls s ++ [c]).

(** [mPlayerEntity.component<C>().get()] followed by a dereference. *)
Definition playerComponent {C : Type} (component : Entity -> option C)
    (s : IngameMode) : Outcome C :=
  player <- deref (findEntity (entities (mWorld s)) (mPlayerEntity s)) ;;
  deref (component player).

(** *** handleEvent *)

Definition handleEvent (event : SDL_Event) (s : IngameMode) : IngameMode :=
  if negb (isKeyDown (event_type event)) && negb (isKeyUp (event_type event))
  then s
  else
    let keyPressed := isKeyDown (event_type event) in
    let i := mPlayerInputs s in
    let s :=
      match keysym_sym event with
      | SDLK_UP =>
          setPlayerInputs
            (mkPlayerInputState keyPressed (mMovingDown i) (mMovingLeft i)
               (mMovingRight i) (mJumping i) (mShooting i)) s
      | SDLK_DOWN =>
          setPlayerInputs
            (mkPlayerInputState (mMovingUp i) keyPressed (mMovingLeft i)
               (mMovingRight i) (mJumping i) (mShooting i)) s
      | SDLK_LEFT =>
          setPlayerInputs
            (mkPlayerInputState (mMovingUp i) (mMovingDown i) keyPressed
               (mMovingRight i) (mJumping i) (mShooting i)) s
      | SDLK_RIGHT =>
          setPlayerInputs
            (mkPlayerInputState (mMovingUp i) (mMovingDown i)
               (mMovingLeft i) keyPressed (mJumping i) (mShooting i)) s
      | SDLK_LCTRL | SDLK_RCTRL =>
          setPlayerInputs
            (mkPlayerInputState (mMovingUp i) (mMovingDown i)
               (mMovingLeft i) (mMovingRight i) keyPressed (mShooting i)) s
      | SDLK_LALT | SDLK_RALT =>
          setPlayerInputs
            (mkPlayerInputState (mMovingUp i) (mMovingDown i)
               (mMovingLeft i) (mMovingRight i) (mJumping i) keyPressed) s
      | _ => s
      end in
    if keyPressed then s
    else
      let debuggingSystem := mDebuggingSystem s in
      match keysym_sym event with
      | SDLK_b =>
          setDebuggingSystem (toggleBoundingBoxDisplay debuggingSystem) s
      | SDLK_c =>
          setDebuggingSystem
            (toggleWorldCollisionDataDisplay debuggingSystem) s
      | SDLK_d => setShowDebugText (negb (mShowDebugText s)) s
      | _ => s
      end.

(** *** The systems, as the controller drives them *)

(** [mEntities.systems.system<S>()->setInputState(mPlayerInputs)] *)
Definition systems_setInputState (sys : SystemId.t) (s : IngameMode)
  : IngameMode :=
  withWorld (system_setInputState sys (mPlayerInputs s))
    (called (Call.setInputState sys (mPlayerInputs s)) s).

(** [mEntities.systems.update<S>(dt)].  The debugging system is the one of
    the sources: it is constructed with the renderer, [&mScrollOffset] as
    camera position and [&mLevelData.mMap]. *)
Definition systems_update (sys : SystemId.t) (dt : TimeDelta)
    (s : IngameMode) : IngameMode :=
  let s := called (Call.update sys dt) s in
  match sys with
  | SystemId.DebuggingSystem =>
      withWorld
        (fun w =>
           setRendered
             (rendered w
              ++ renderCalls
                   (DebuggingSystem_update (mDebuggingSystem s)
                      (mScrollOffset w) (mMap w) (entities w)))
             w)
        s
  | _ => withWorld (system_update sys dt (mPlayerInputs s)) s
  end.

(** *** showDebugText *)

Definition showDebugText (s : IngameMode) : Outcome IngameMode :=
  playerPos <- playerComponent worldPosition s ;;
  playerVel <- playerComponent physical s ;;
  Done (called
          (Call.showDebugText (mScrollOffset (mWorld s)) playerPos playerVel)
          s).

(** *** checkForLevelExitReached *)

(** The condition computed inside the callback, on the player's box in
    world space and the position of the trigger. *)
Definition touchesLevelExit (playerBBox : BoundingBox)
    (triggerPosition : WorldPosition) : bool :=
  let playerAboveOrAtTriggerHeight :=
    Rect_bottom playerBBox <=? y triggerPosition in
  let touchingTriggerOnXAxis :=
    (x triggerPosition >=? Rect_left playerBBox)
    && (x triggerPosition <=? int_add (Rect_right playerBBox) 1) in
  playerAboveOrAtTriggerHeight && touchingTriggerOnXAxis.

(** The callback given to [each<Trigger, WorldPosition>], for one entity
    of the manager. *)
Definition levelExitCallback (s : IngameMode) (entity : Entity)
  : Outcome IngameMode :=
  match trigger entity, worldPosition entity with
  | Some mType, Some triggerPosition =>
      if negb (isLevelExit mType) || mLevelFinished s then Done s
      else
        playerPosition <- playerComponent worldPosition s ;;
        bbox <- playerComponent boundingBox s ;;
        let playerBBox := toWorldSpace bbox playerPosition in
        Done (setLevelFinished (touchesLevelExit playerBBox triggerPosition)
                               s)
  | _, _ => Done s
  end.

Fixpoint eachEntity (f : IngameMode -> Entity -> Outcome IngameMode)
    (es : EntityManager) (s : IngameMode) : Outcome IngameMode :=
  match es with
  | [] => Done s
  | entity :: rest => s' <- f s entity ;; eachEntity f rest s'
  end.

Definition checkForLevelExitReached (s : IngameMode) : Outcome IngameMode :=
  let s := called Call.checkForLevelExitReached s in
  eachEntity levelExitCallback (entities (mWorld s)) s.

(** *** checkForPlayerDeath, restartLevel, updateAndRender *)

(** [playerDead] of [checkForPlayerDeath]. *)
Definition playerDead (s : IngameMode) : Outcome bool :=
  playerState <- playerComponent playerControlled s ;;
  Done (PlayerState_eqb playerState Dead
        && (mHealth (mPlayerModel (mWorld s)) <=? 0)).

(** The assignments of [restartLevel] between [fadeOutScreen] and the
    forced frame: the state in which [updateAndRender(0)] is entered. *)
Definition resetLevelState (s : IngameMode) : IngameMode :=
  let s := withWorld (setMap (mMapAtLevelStart s)) s in
  let s := withWorld (setEntities []) (called Call.entitiesReset s) in
  let s := called Call.createEntitiesForLevel s in
  let '(es, v, player) :=
    createEntitiesForLevel (mInitialActors s) (entities (mWorld s))
                           (env (mWorld s)) in
  let s := setPlayerEntity player
             (withWorld (fun w => setEnv v (setEntities es w)) s) in
  withWorld (setPlayerModel (mPlayerModelAtLevelStart s)) s.

(** [restartLevel], with the recursive call to [updateAndRender] passed in
    as [self]. *)
Definition restartLevel
    (self : TimeDelta -> IngameMode -> Outcome IngameMode)
    (s : IngameMode) : Outcome IngameMode :=
  let s := called Call.fadeOutScreen s in
  let s := resetLevelState s in
  s <- self zeroDelta s ;;
  Done (called Call.fadeInScreen s).

Definition checkForPlayerDeath
    (self : TimeDelta -> IngameMode -> Outcome IngameMode)
    (s : IngameMode) : Outcome IngameMode :=
  let s := called Call.checkForPlayerDeath s in
  dead <- playerDead s ;;
  if dead then restartLevel self s else Done s.

(** [updateAndRender] from the setting of the input state to
    [showDebugText]: everything before the two checks. *)
Definition updateAndRenderFrame (dt : TimeDelta) (s : IngameMode)
  : Outcome IngameMode :=
  let s := systems_setInputState SystemId.AttackSystem s in
  let s := systems_setInputState SystemId.ElevatorSystem s in
  let s := systems_update SystemId.ElevatorSystem dt s in
  let s := systems_update SystemId.PlayerMovementSystem dt s in
  let s := systems_update SystemId.AttackSystem dt s in
  let s := systems_update SystemId.PlayerInteractionSystem dt s in
  let s := systems_update SystemId.SecurityCameraSystem dt s in
  let s := systems_update SystemId.PhysicsSystem dt s in
  let s := systems_update SystemId.DamageSystem dt s in
  let s := systems_update SystemId.DamageInflictionSystem dt s in
  let s := systems_update SystemId.AnimationSystem dt s in
  let s := systems_update SystemId.MapScrollSystem dt s in
  let s := called Call.bindRenderTarget s in
  let s := systems_update SystemId.RenderingSystem dt s in
  let s := systems_update SystemId.DebuggingSystem dt s in
  let s := withWorld (hud_updateAndRender dt)
             (called (Call.hudUpdateAndRender dt) s) in
  let s := called Call.unbindRenderTarget s in
  let s := called Call.renderTargetRender s in
  if mShowDebugText s then showDebugText s else Done s.

(** [updateAndRender]; [fuel] bounds the depth of the calls of
    [updateAndRender] that are active at the same time (the call itself,
    the one of [restartLevel], and so on). *)
Fixpoint updateAndRender (fuel : nat) (dt : TimeDelta) (s : IngameMode)
  : Outcome IngameMode :=
  match fuel with
  | O => OutOfFuel
  | S fuel' =>
      if mLevelFinished s then Done s
      else
        s <- updateAndRenderFrame dt s ;;
        s <- checkForPlayerDeath (updateAndRender fuel') s ;;
        checkForLevelExitReached s
  end.

(** [levelFinished] *)
Definition levelFinished (s : IngameMode) : bool := mLevelFinished s.

(** *** Sequences of calls from the owner of the mode *)

Inductive Request :=
| HandleEvent (event : SDL_Event)
| UpdateAndRender (dt : TimeDelta).

Definition serve (fuel : nat) (r : Request) (s : IngameMode)
  : Outcome IngameMode :=
  match r with
  | HandleEvent event => Done (handleEvent event s)
  | UpdateAndRender dt => updateAndRender fuel dt s
  end.

Fixpoint serveAll (fuel : nat) (rs : list Request) (s : IngameMode)
  : Outcome IngameMode :=
  match rs with
  | [] => Done s
  | r :: rest => s' <- serve fuel r s ;; serveAll fuel rest s'
  end.

(** The calls made between two states of one run. *)
Definition callsSince (before after : IngameMode) : list Call.t :=
  skipn (length (mCalls before)) (mCalls after).
End Controller.

(** ** Reading the record of calls *)

Section Reading.
Context `{GT : GameTypes}.

(** The order of the [update] calls in the text of [updateAndRender]. *)
Definition frameOrder : list SystemId.t :=
  [ SystemId.ElevatorSystem; SystemId.PlayerMovementSystem;
    SystemId.AttackSystem; SystemId.PlayerInteractionSystem;
    SystemId.SecurityCameraSystem; SystemId.PhysicsSystem;
    SystemId.DamageSystem; SystemId.DamageInflictionSystem;
    SystemId.AnimationSystem; SystemId.MapScrollSystem;
    SystemId.RenderingSystem; SystemId.DebuggingSystem ].

(** The system updates among some calls, in order. *)
Definition updatesOf (calls : list Call.t)
  : list (SystemId.t * TimeDelta) :=
  flat_map
    (fun c => match c with Call.update sys dt => [(sys, dt)] | _ => [] end)
    calls.

(** One round of system updates with time step [dt]. *)
Definition updateRound (dt : TimeDelta) : list (SystemId.t * TimeDelta) :=
  map (fun sys => (sys, dt)) frameOrder.

Inductive Check := DeathCheck | ExitCheck.

(** The end-of-frame checks among some calls, in order. *)
Definition checksOf (calls : list Call.t) : list Check :=
  flat_map
    (fun c =>
       match c with
       | Call.checkForPlayerDeath => [DeathCheck]
       | Call.checkForLevelExitReached => [ExitCheck]
       | _ => []
       end)
    calls.

(** The screen fades among some calls, in order: [true] is a fade-out. *)
Definition fadesOf (calls : list Call.t) : list bool :=
  flat_map
    (fun c =>
       match c with
       | Call.fadeOutScreen => [true]
       | Call.fadeInScreen => [false]
       | _ => []
       end)
    calls.
End Reading.

(** ** One implementation of the interfaces, to run the code on inputs

    Eight-pixel tiles, a view port of 32 by 20 tiles, rectangles with
    inclusive right and bottom edges, bounding boxes anchored at the bottom
    left tile of the entity.  The systems of this implementation leave the
    world as it is; its levels consist of player starts and level exits. *)

Definition demoTypes : GameTypes := {|
  TimeDelta := Z;
  zeroDelta := 0;
  Velocity := Z * Z;
  PlayerModel := Z;
  mHealth := fun health => health;
  ActorDescription := bool * Vector;
  Env := unit
|}.

Definition demoHelpers : EngineHelpers := {|
  mapViewPortWidthTiles := 32;
  mapViewPortHeightTiles := 20;
  tilesToPixels := fun tiles => tiles * 8;
  tileVectorToPixelVector := fun v => mkVector (x v * 8) (y v * 8);
  tileExtentsToPixelExtents := fun e => mkSize (width e * 8) (height e * 8);
  Rect_left := fun r => x (topLeft r);
  Rect_right := fun r => x (topLeft r) + (width (size r) - 1);
  Rect_bottom := fun r => y (topLeft r) + (height (size r) - 1);
  makeRect := fun tl br => mkRect tl (mkSize (x br - x tl) (y br - y tl));
  toWorldSpace := fun bbox pos =>
    mkRect (mkVector (x (topLeft bbox) + x pos)
                     (y (topLeft bbox) + (y pos - (height (size bbox) - 1))))
           (size bbox);
  reachesExtent := Z.geb;
  reachesExtent_below := fun v extent _ H =>
    proj1 (Z.leb_gt extent v) (eq_trans (eq_sym (Z.geb_leb v extent)) H)
|}.

(** The same, with extents of the unsigned type [std::size_t]. *)
Definition demoUnsignedHelpers : EngineHelpers := {|
  mapViewPortWidthTiles := 32;
  mapViewPortHeightTiles := 20;
  tilesToPixels := tilesToPixels (EngineHelpers := demoHelpers);
  tileVectorToPixelVector :=
    tileVectorToPixelVector (EngineHelpers := demoHelpers);
  tileExtentsToPixelExtents :=
    tileExtentsToPixelExtents (EngineHelpers := demoHelpers);
  Rect_left := Rect_left (EngineHelpers := demoHelpers);
  Rect_right := Rect_right (EngineHelpers := demoHelpers);
  Rect_bottom := Rect_bottom (EngineHelpers := demoHelpers);
  makeRect := makeRect (EngineHelpers := demoHelpers);
  toWorldSpace := toWorldSpace (EngineHelpers := demoHelpers);
  reachesExtent := fun v extent => v mod 18446744073709551616 >=? extent;
  reachesExtent_below :=
    ltac:(intros v extent Hint H;
          unfold isInt, INT_MIN, INT_MAX in Hint; cbv beta in H;
          rewrite Z.geb_leb in H; apply Z.leb_gt in H;
          destruct (Z_lt_le_dec v 0);
          [ pose proof (Z.mod_pos_bound v 18446744073709551616 eq_refl); lia
          | rewrite Z.mod_small in H; lia ])
|}.

Section DemoDefinitions.
#[local] Existing Instance demoTypes.
#[local] Existing Instance demoHelpers.

(** A player entity: three tiles wide, five tiles high. *)
Definition demoPlayer (id : nat) (pos : Vector) (state : PlayerState)
  : Entity :=
  mkEntity id (Some pos) (Some (mkRect (mkVector 0 0) (mkSize 3 5)))
           (Some (0, 0)) (Some state) false false None None.

Definition demoExit (id : nat) (pos : Vector) : Entity :=
  mkEntity id (Some pos) None None None false false None (Some LevelExit).

(** An entity that carries a geometry link and nothing else. *)
Definition demoLinkOnly (id : nat) (section : Rect) : Entity :=
  mkEntity id None None None None false false (Some section) None.

(** An elevator platform: position, box, solid body, geometry link. *)
Definition demoElevator (id : nat) (pos : Vector) (section : Rect)
  : Entity :=
  mkEntity id (Some pos) (Some (mkRect (mkVector 0 0) (mkSize 4 1)))
           None None false true (Some section) None.

(** A damaging, solid entity with position and box. *)
Definition demoHazard (id : nat) (pos : Vector) : Entity :=
  mkEntity id (Some pos) (Some (mkRect (mkVector 0 0) (mkSize 1 1)))
           None None true true None None.

(** The factory: one entity per actor ([true] marks the player start),
    numbered from the size of the manager; returns the last player. *)
Fixpoint demoCreate (actors : list (bool * Vector)) (es : list Entity)
    (player : nat) : list Entity * nat :=
  match actors with
  | [] => (es, player)
  | (true, pos) :: rest =>
      demoCreate rest (es ++ [demoPlayer (length es) pos Standing])
                 (length es)
  | (false, pos) :: rest =>
      demoCreate rest (es ++ [demoExit (length es) pos]) player
  end.

Definition demoSystems : @GameSystems demoTypes := {|
  system_setInputState := fun _ _ w => w;
  system_update := fun _ _ _ w => w;
  hud_updateAndRender := fun _ w => w;
  createEntitiesForLevel := fun actors es v =>
    let '(es', player) := demoCreate actors es 0%nat in (es', v, player)
|}.

(** A map of [w] by [h] tiles whose tiles are solid on top and flammable. *)
Definition demoMap (w h : Z) : Map.t :=
  Map.mk w h
    (fun _ _ edge =>
       match edge with SolidEdge.top => true | _ => false end)
    (fun _ _ => mkTileAttributes false false true).

Definition demoInputs : PlayerInputState :=
  mkPlayerInputState false false true false false false.

Definition demoOverlays : DebuggingSystem :=
  mkDebuggingSystem true true false.
End DemoDefinitions.

Section DemoStates.
#[local] Existing Instance demoTypes.
#[local] Existing Instance demoHelpers.
#[local] Existing Instance demoSystems.

(** A mode whose level-start snapshot has health 9. *)
Definition demoMode (es : list Entity) (player : nat) (health : Z)
    (actors : list (bool * Vector)) (finished : bool) : IngameMode :=
  mkIngameMode
    (mkWorld es (demoMap 64 32) health (mkVector 0 0) [] tt)
    player demoInputs actors (demoMap 64 32) 9 finished false
    demoOverlays [].

(** The player, alive, at the level exit of the specification's example:
    box with left 9, right 11, bottom 5; exit at (10, 5). *)
Definition demoAtExit : IngameMode :=
  demoMode [demoPlayer 0 (mkVector 9 5) Standing; demoExit 1 (mkVector 10 5)]
           0 9 [(true, mkVector 2 5); (false, mkVector 10 5)] false.

(** The same box moved two tiles to the left: left 7, right 9, bottom 5. *)
Definition demoLeftOfExit : IngameMode :=
  demoMode [demoPlayer 0 (mkVector 7 5) Standing; demoExit 1 (mkVector 10 5)]
           0 9 [(true, mkVector 2 5); (false, mkVector 10 5)] false.

(** The player at the first of two level exits. *)
Definition demoTwoExits : IngameMode :=
  demoMode [demoPlayer 0 (mkVector 9 5) Standing; demoExit 1 (mkVector 10 5);
            demoExit 2 (mkVector 40 5)]
           0 9 [(true, mkVector 2 5); (false, mkVector 10 5)] false.

(** The player dead at the level exit; the level starts away from it. *)
Definition demoDeadAtExit : IngameMode :=
  demoMode [demoPlayer 0 (mkVector 9 5) Dead; demoExit 1 (mkVector 10 5)]
           0 0 [(true, mkVector 2 5); (false, mkVector 10 5)] false.

(** The player dead, in a level that starts at its exit. *)
Definition demoStartsAtExit : IngameMode :=
  demoMode [demoPlayer 0 (mkVector 30 5) Dead; demoExit 1 (mkVector 10 5)]
           0 0 [(true, mkVector 9 5); (false, mkVector 10 5)] false.

(** A finished level. *)
Definition demoFinished : IngameMode :=
  demoMode [demoPlayer 0 (mkVector 9 5) Standing; demoExit 1 (mkVector 10 5)]
           0 9 [(true, mkVector 2 5); (false, mkVector 10 5)] true.

(** The state a run returns, or [fallback] when it does not return. *)
Definition resultOr (fallback : IngameMode) (o : Outcome IngameMode)
  : IngameMode :=
  match o with Done s => s | _ => fallback end.

(** [demoDeadAtExit] after one call of [updateAndRender] with [dt = 16]. *)
Definition demoRestarted : IngameMode :=
  resultOr demoDeadAtExit (updateAndRender 2 16 demoDeadAtExit).

(** [demoAtExit] after one call of [updateAndRender] with [dt = 16]. *)
Definition demoExited : IngameMode :=
  resultOr demoAtExit (updateAndRender 1 16 demoAtExit).

(** [demoStartsAtExit] after [restartLevel]. *)
Definition demoRestartedAtExit : IngameMode :=
  resultOr demoStartsAtExit
           (restartLevel (updateAndRender 1) demoStartsAtExit).

(** The two demo levels at their death check. *)
Definition demoDeadFrame : IngameMode :=
  resultOr demoDeadAtExit (updateAndRenderFrame 16 demoDeadAtExit).

Definition demoAliveFrame : IngameMode :=
  resultOr demoAtExit (updateAndRenderFrame 16 demoAtExit).

(** Bounding-box display alone. *)
Definition demoOnlyBoxes : DebuggingSystem :=
  mkDebuggingSystem true false false.

Definition demoSection : Rect := mkRect (mkVector 1 1) (mkSize 2 2).

Definition demoEntities : list Entity :=
  [ demoLinkOnly 0 demoSection;
    demoElevator 1 (mkVector 3 3) demoSection;
    demoHazard 2 (mkVector 0 0);
    demoPlayer 3 (mkVector 0 9) Standing ].
End DemoStates.

(** ** The frame in closed form *)

Section FrameSummary.
Context `{GT : GameTypes} `{EH : EngineHelpers} `{GS : @GameSystems GT}.

(** What [systems.update<sys>(dt)] does to the world. *)
Definition updateWorld (d : DebuggingSystem) (inputs : PlayerInputState)
    (dt : TimeDelta) (w : World) (sys : SystemId.t) : World :=
  match sys with
  | SystemId.DebuggingSystem =>
      setRendered
        (rendered w
         ++ renderCalls
              (DebuggingSystem_update d (mScrollOffset w) (mMap w)
                 (entities w)))
        w
  | _ => system_update sys dt inputs w
  end.

(** The world after the two [setInputState] calls, the updates of the
    systems in [frameOrder], one after the other, and the HUD. *)
Definition frameWorld (d : DebuggingSystem) (inputs : PlayerInputState)
    (dt : TimeDelta) (w : World) : World :=
  hud_updateAndRender dt
    (fold_left (updateWorld d inputs dt) frameOrder
       (system_setInputState SystemId.ElevatorSystem inputs
          (system_setInputState SystemId.AttackSystem inputs w))).

(** The calls of a frame up to the rendering of the view port. *)
Definition frameCalls (inputs : PlayerInputState) (dt : TimeDelta)
  : list Call.t :=
  [ Call.setInputState SystemId.AttackSystem inputs;
    Call.setInputState SystemId.ElevatorSystem inputs;
    Call.update SystemId.ElevatorSystem dt;
    Call.update SystemId.PlayerMovementSystem dt;
    Call.update SystemId.AttackSystem dt;
    Call.update SystemId.PlayerInteractionSystem dt;
    Call.update SystemId.SecurityCameraSystem dt;
    Call.update SystemId.PhysicsSystem dt;
    Call.update SystemId.DamageSystem dt;
    Call.update SystemId.DamageInflictionSystem dt;
    Call.update SystemId.AnimationSystem dt;
    Call.update SystemId.MapScrollSystem dt;
    Call.bindRenderTarget;
    Call.update SystemId.RenderingSystem dt;
    Call.update SystemId.DebuggingSystem dt;
    Call.hudUpdateAndRender dt;
    Call.unbindRenderTarget;
    Call.renderTargetRender ].

(** Some entity with a [LevelExit] trigger and a position is touched by
    the box [playerBBox]. *)
Definition levelExitTouched (playerBBox : BoundingBox)
    (es : EntityManager) : bool :=
  existsb
    (fun entity =>
       match trigger entity, worldPosition entity with
       | Some mType, Some triggerPosition =>
           isLevelExit mType && touchesLevelExit playerBBox triggerPosition
       | _, _ => false
       end)
    es.

(** A call of [updateAndRender] ran [restartLevel]. *)
Definition restarted (before after : IngameMode) : Prop :=
  In Call.fadeOutScreen (callsSince before after).

(** The members of the controller that no system has a pointer to and
    that [updateAndRender] never assigns. *)
Definition settings (s : IngameMode) :=
  (mPlayerInputs s, mDebuggingSystem s, mShowDebugText s,
   mInitialActors s, mMapAtLevelStart s, mPlayerModelAtLevelStart s).

Definition sameSettings (s s' : IngameMode) : Prop :=
  settings s' = settings s.
End FrameSummary.

(** ** File names and debug text *)

Section FileNames.
Import String Ascii.

(** [std::to_string(int)]: the decimal digits, with a minus sign for
    negative numbers. *)
Definition to_string (n : Z) : string :=
  DecimalString.NilZero.string_of_int (Z.to_int n).

Definition EPISODE_PREFIXES : list ascii := ["L"; "M"; "N"; "O"]%char.

(** [levelFileName]; a failed [assert] is a [ContractViolation] (a build
    with assertions enabled). *)
Definition levelFileName (episode level : Z) : Outcome string :=
  if negb ((episode >=? 0) && (episode <? 4)) then ContractViolation
  else if negb ((level >=? 0) && (level <? 8)) then ContractViolation
  else
    prefix <- deref (nth_error EPISODE_PREFIXES (Z.to_nat episode)) ;;
    let fileName := EmptyString in
    let fileName := append fileName (String prefix EmptyString) in
    let fileName := append fileName (to_string (level + 1)) in
    let fileName := append fileName ".MNI" in
    Done fileName.

(** [loadingScreenFileName] *)
Definition loadingScreenFileName (episode : Z) : Outcome string :=
  if negb ((episode >=? 0) && (episode <? 4)) then ContractViolation
  else
    let fileName := "LOAD"%string in
    let fileName := append fileName (to_string (episode + 1)) in
    let fileName := append fileName ".MNI" in
    Done fileName.

Fixpoint spaces (n : nat) : string :=
  match n with
  | O => EmptyString
  | S n' => String " " (spaces n')
  end.

(** [stream << std::setw(width) << text]: [text], right-adjusted in a field
    of [width] characters filled with spaces, and never truncated. *)
Definition setw (width : Z) (text : string) : string :=
  append (spaces (Z.to_nat width - String.length text)) text.

(** [vec2String] at [ValueT = int], the instantiation used for the scroll
    offset and the player position ([std::fixed] and [std::setprecision]
    do not affect the insertion of an integer). *)
Definition vec2String (vec : Vector) (width : Z) : string :=
  append (setw width (to_string (x vec)))
         (append ", " (setw width (to_string (y vec)))).
End FileNames.

(** ** Key bindings, read as a table *)

Module InputFlag.
Inductive t :=
| MovingUp | MovingDown | MovingLeft | MovingRight | Jumping | Shooting.
End InputFlag.

Definition getFlag (f : InputFlag.t) (i : PlayerInputState) : bool :=
  match f with
  | InputFlag.MovingUp => mMovingUp i
  | InputFlag.MovingDown => mMovingDown i
  | InputFlag.MovingLeft => mMovingLeft i
  | InputFlag.MovingRight => mMovingRight i
  | InputFlag.Jumping => mJumping i
  | InputFlag.Shooting => mShooting i
  end.

(** The member that the first [switch] of [handleEvent] assigns for a key. *)
Definition keyBinding (key : Keycode) : option InputFlag.t :=
  match key with
  | SDLK_UP => Some InputFlag.MovingUp
  | SDLK_DOWN => Some InputFlag.MovingDown
  | SDLK_LEFT => Some InputFlag.MovingLeft
  | SDLK_RIGHT => Some InputFlag.MovingRight
  | SDLK_LCTRL | SDLK_RCTRL => Some InputFlag.Jumping
  | SDLK_LALT | SDLK_RALT => Some InputFlag.Shooting
  | _ => None
  end.

(** The keys of the second [switch] of [handleEvent]. *)
Definition isDebugKey (key : Keycode) : bool :=
  match key with
  | SDLK_b | SDLK_c | SDLK_d => true
  | _ => false
  end.

Definition isKeyEvent (event : SDL_Event) : bool :=
  isKeyDown (event_type event) || isKeyUp (event_type event).

(** ** Counting what a tile shows *)

Definition solidEdgeCount (c : CollisionData) : nat :=
  length
    (filter (isSolidOn c)
       [SolidEdge.top; SolidEdge.right; SolidEdge.bottom; SolidEdge.left]).

Definition attributeCount (a : TileAttributes) : nat :=
  ((if isClimbable a then 1 else 0)
   + (if isLadder a then 1 else 0)
   + (if isFlammable a then 1 else 0))%nat.

Section MoreDefinitions.
Context `{GT : GameTypes} `{EH : EngineHelpers} `{GS : @GameSystems GT}.

(** The events [handleEvent] is given, one after the other. *)
Definition handleEvents (events : list SDL_Event) (s : IngameMode)
  : IngameMode :=
  fold_left (fun s event => handleEvent event s) events s.

(** The state after the systems, the HUD and the rendering of the view
    port, before [showDebugText]: what the player lookups of the rest of
    the frame see. *)
Definition afterSystems (dt : TimeDelta) (s : IngameMode) : IngameMode :=
  withWorld
    (frameWorld (mDebuggingSystem s) (mPlayerInputs s) dt)
    s.

(** The reads of the map among some effects, in program order. *)
Definition mapReads (effects : list Effect) : list Effect :=
  filter (fun e => match e with Render _ => false | _ => true end) effects.

(** The reads of the world-collision display for the view-port tile
    [(x, y)]: none when the guard rejects the tile, else the collision
    data once and the attributes once for each of the three flags. *)
Definition tileReads (cameraPos : Vector) (m : Map.t) (x y : Z)
  : list Effect :=
  let col := int_add x (base.x cameraPos) in
  let row := int_add y (base.y cameraPos) in
  if reachesExtent col (Map.width m) || reachesExtent row (Map.height m)
  then []
  else [ QueryCollisionData col row; QueryAttributes col row;
         QueryAttributes col row; QueryAttributes col row ].

(** An entity that the level-exit check looks at more closely. *)
Definition isLevelExitTrigger (entity : Entity) : bool :=
  match trigger entity, worldPosition entity with
  | Some mType, Some _ => isLevelExit mType
  | _, _ => false
  end.

(** Entities drawn by the two loops of the bounding-box display. *)
Definition hasBox (entity : Entity) : bool :=
  match worldPosition entity, boundingBox entity with
  | Some _, Some _ => true
  | _, _ => false
  end.

Definition hasLink (entity : Entity) : bool :=
  match worldPosition entity, mapGeometryLink entity with
  | Some _, Some _ => true
  | _, _ => false
  end.
End MoreDefinitions.

(** ** A level that cannot be survived

    The same implementation as before, except that the factory creates the
    player in the state [Dead]. *)

Section DoomedDefinitions.
#[local] Existing Instance demoTypes.
#[local] Existing Instance demoHelpers.

Fixpoint doomedCreate (actors : list (bool * Vector)) (es : list Entity)
    (player : nat) : list Entity * nat :=
  match actors with
  | [] => (es, player)
  | (true, pos) :: rest =>
      doomedCreate rest (es ++ [demoPlayer (length es) pos Dead])
                   (length es)
  | (false, pos) :: rest =>
      doomedCreate rest (es ++ [demoExit (length es) pos]) player
  end.

Definition doomedSystems : @GameSystems demoTypes := {|
  system_setInputState := fun _ _ w => w;
  system_update := fun _ _ _ w => w;
  hud_updateAndRender := fun _ w => w;
  createEntitiesForLevel := fun actors es v =>
    let '(es', player) := doomedCreate actors es 0%nat in (es', v, player)
|}.
End DoomedDefinitions.

Section DoomedStates.
#[local] Existing Instance demoTypes.
#[local] Existing Instance demoHelpers.
#[local] Existing Instance doomedSystems.

(** The states of the doomed level in which a frame ends in a restart:
    the player of the level is dead and the snapshot of the player model has
    no health left. *)
Definition doomed (s : IngameMode) : Prop :=
  mLevelFinished s = false
  /\ mShowDebugText s = false
  /\ entities (mWorld s) = [demoPlayer 0 (mkVector 2 5) Dead]
  /\ mPlayerEntity s = 0%nat
  /\ mPlayerModel (mWorld s) = 0
  /\ mInitialActors s = [(true, mkVector 2 5)]
  /\ mPlayerModelAtLevelStart s = 0.

Definition doomedMode : IngameMode :=
  mkIngameMode
    (mkWorld [demoPlayer 0 (mkVector 2 5) Dead] (demoMap 64 32) 0
             (mkVector 0 0) [] tt)
    0%nat demoInputs [(true, mkVector 2 5)] (demoMap 64 32) 0 false false
    demoOverlays [].
End DoomedStates.

Section MoreDemoStates.
#[local] Existing Instance demoTypes.
#[local] Existing Instance demoHelpers.
#[local] Existing Instance demoSystems.

(** A player without velocity, and one that is not player controlled. *)
Definition demoStillPlayer (id : nat) (pos : Vector) : Entity :=
  mkEntity id (Some pos) (Some (mkRect (mkVector 0 0) (mkSize 3 5)))
           None (Some Standing) false false None None.

Definition demoGhostPlayer (id : nat) : Entity :=
  mkEntity id None None None None false false None None.

(** [demoMode] with the debug text switched on. *)
Definition demoTextMode (es : list Entity) (player : nat) : IngameMode :=
  mkIngameMode
    (mkWorld es (demoMap 64 32) 9 (mkVector 3 4) [] tt)
    player demoInputs [(true, mkVector 2 5)] (demoMap 64 32) 9 false true
    demoOverlays [].

(** A played level: the map has shrunk, the player has moved and lost
    health, the camera has scrolled. *)
Definition demoPlayed : IngameMode :=
  mkIngameMode
    (mkWorld [demoPlayer 7 (mkVector 30 12) Dead] (demoMap 10 10) 0
             (mkVector 20 6) [] tt)
    7%nat demoInputs [(true, mkVector 2 5); (false, mkVector 10 5)]
    (demoMap 64 32) 9 false false demoOverlays [].
Definition demoTextPlayer : IngameMode :=
  demoTextMode [demoPlayer 0 (mkVector 9 5) Standing] 0.

Definition demoTextStill : IngameMode :=
  demoTextMode [demoStillPlayer 0 (mkVector 9 5)] 0.

(** [demoTextPlayer] after the frame of a call with [dt = 16]. *)
Definition demoShown : IngameMode :=
  resultOr demoTextPlayer (updateAndRenderFrame 16 demoTextPlayer).

(** A level without exits whose player handle is dangling, and a level
    with an exit whose player has no components. *)
Definition demoNoExits : IngameMode :=
  demoMode [demoGhostPlayer 0] 7 9 [] false.

Definition demoExitNoBox : IngameMode :=
  demoMode [demoGhostPlayer 0; demoExit 1 (mkVector 40 5)] 0 9 [] false.

Definition demoRequests : list Request :=
  [ HandleEvent (mkEvent SDL_KEYUP SDLK_b);
    UpdateAndRender 16;
    HandleEvent (mkEvent SDL_KEYDOWN SDLK_RIGHT);
    UpdateAndRender 16 ].

(** [demoDeadAtExit] after [demoRequests]. *)
Definition demoServed : IngameMode :=
  resultOr demoDeadAtExit (serveAll 2 demoRequests demoDeadAtExit).

(** The player classified as dead while the model still has health, and
    the model out of health while the player still stands: in neither is
    the player dead for the controller.  And the player dead with the
    health below zero. *)
Definition demoDeadHealthy : IngameMode :=
  demoMode [demoPlayer 0 (mkVector 30 5) Dead; demoExit 1 (mkVector 10 5)]
           0 9 [(true, mkVector 2 5); (false, mkVector 10 5)] false.

Definition demoStandingNoHealth : IngameMode :=
  demoMode
    [demoPlayer 0 (mkVector 30 5) Standing; demoExit 1 (mkVector 10 5)]
    0 0 [(true, mkVector 2 5); (false, mkVector 10 5)] false.

Definition demoDeadNegative : IngameMode :=
  demoMode [demoPlayer 0 (mkVector 30 5) Dead; demoExit 1 (mkVector 10 5)]
           0 (-3) [(true, mkVector 2 5); (false, mkVector 10 5)] false.

Definition demoDeadHealthyFrame : IngameMode :=
  resultOr demoDeadHealthy (updateAndRenderFrame 16 demoDeadHealthy).

Definition demoStandingNoHealthFrame : IngameMode :=
  resultOr demoStandingNoHealth
           (updateAndRenderFrame 16 demoStandingNoHealth).

Definition demoDeadNegativeFrame : IngameMode :=
  resultOr demoDeadNegative (updateAndRenderFrame 16 demoDeadNegative).

(** The state in which the frame forced by a restart is entered. *)
Definition demoReset (s1 : IngameMode) : IngameMode :=
  resetLevelState
    (called Call.fadeOutScreen (called Call.checkForPlayerDeath s1)).
End MoreDemoStates.

(** * Properties of the debugging system *)

Section DebuggingFacts.
Context `{GT : GameTypes} `{EH : EngineHelpers}.

Lemma upTo_In (n i : Z) : In i (upTo n) -> 0 <= i < n.
Proof.
  unfold upTo. rewrite in_map_iff.
  intros [k [<- Hk]]. apply in_seq in Hk. lia.
Qed.

Lemma queriedTiles_app (l1 l2 : list Effect) :
  queriedTiles (l1 ++ l2) = queriedTiles l1 ++ queriedTiles l2.
Proof. unfold queriedTiles. apply flat_map_app. Qed.

Lemma renderCalls_app (l1 l2 : list Effect) :
  renderCalls (l1 ++ l2) = renderCalls l1 ++ renderCalls l2.
Proof. unfold renderCalls. apply flat_map_app. Qed.

(** An effect list made of renderer calls queries no tile. *)
Lemma queriedTiles_renders (l : list Effect) :
  (forall e, In e l -> exists c, e = Render c) -> queriedTiles l = [].
Proof.
  induction l as [|e l IH]; intros Hall; [reflexivity|].
  destruct (Hall e (or_introl eq_refl)) as [c ->]. simpl.
  apply IH. intros e' He'. apply Hall. now right.
Qed.

Lemma In_renderCalls (c : RenderCall) (l : list Effect) :
  In (Render c) l -> In c (renderCalls l).
Proof.
  intros Hin. unfold renderCalls. apply in_flat_map.
  exists (Render c). split; [assumption | now left].
Qed.

Lemma boundingBoxPass_renders (cameraPos : Vector) (es : EntityManager) :
  forall e, In e (boundingBoxPass cameraPos es) -> exists c, e = Render c.
Proof.
  intros e Hin. unfold boundingBoxPass in Hin.
  apply in_app_or in Hin. destruct Hin as [Hin | Hin];
    apply in_flat_map in Hin; destruct Hin as [entity [_ Hin]];
    destruct (worldPosition entity); simpl in Hin; try contradiction.
  - destruct (boundingBox entity); simpl in Hin; try contradiction.
    destruct Hin as [<- | []]. eauto.
  - destruct (mapGeometryLink entity); simpl in Hin; try contradiction.
    destruct Hin as [<- | []]. eauto.
Qed.

Lemma gridPass_renders :
  forall e, In e gridPass -> exists c, e = Render c.
Proof.
  intros e Hin. unfold gridPass in Hin.
  apply in_app_or in Hin. destruct Hin as [Hin | Hin];
    apply in_map_iff in Hin; destruct Hin as [i [<- _]]; eauto.
Qed.

(** [toInt] yields an [int] and leaves an [int] as it is. *)
Lemma toInt_isInt (z : Z) : isInt (toInt z).
Proof.
  unfold isInt, toInt, INT_MIN, INT_MAX.
  pose proof (Z.mod_pos_bound (z + 2147483648) 4294967296 eq_refl). lia.
Qed.

Lemma toInt_id (z : Z) : isInt z -> toInt z = z.
Proof.
  unfold isInt, toInt, INT_MIN, INT_MAX. intros Hz.
  rewrite Z.mod_small by lia. lia.
Qed.

(** The tiles queried for the view-port tile [(x, y)] are the guarded
    tile, and only when the guard lets it through. *)
Lemma collisionPassTile_queries (cameraPos : Vector) (m : Map.t)
    (x y col row : Z) :
  In (col, row) (queriedTiles (collisionPassTile cameraPos m x y)) ->
  col = int_add x (base.x cameraPos) /\ row = int_add y (base.y cameraPos)
  /\ reachesExtent col (Map.width m) = false
  /\ reachesExtent row (Map.height m) = false.
Proof.
  unfold collisionPassTile.
  destruct (reachesExtent (int_add x (base.x cameraPos)) (Map.width m))
    eqn:Hc; [simpl; contradiction|].
  destruct (reachesExtent (int_add y (base.y cameraPos)) (Map.height m))
    eqn:Hr; [simpl; contradiction|].
  simpl orb. cbv iota.
  intros Hin.
  assert (Hq : (col, row)
               = (int_add x (base.x cameraPos),
                  int_add y (base.y cameraPos))).
  { unfold queriedTiles in Hin. apply in_flat_map in Hin.
    destruct Hin as [e [He Hq]].
    repeat (apply in_app_or in He; destruct He as [He | He]);
      simpl in He;
      repeat match type of He with
             | In _ (if ?b then _ else _) => destruct b; simpl in He
             | _ \/ _ => destruct He as [He | He]
             | False => contradiction
             end;
      subst e; simpl in Hq; try contradiction;
      destruct Hq as [Hq | []]; now symmetry. }
  inversion Hq; subst. repeat split; assumption.
Qed.

Lemma worldCollisionPass_queries (cameraPos : Vector) (m : Map.t)
    (col row : Z) :
  In (col, row) (queriedTiles (worldCollisionPass cameraPos m)) ->
  exists x y,
    0 <= x < mapViewPortWidthTiles /\ 0 <= y < mapViewPortHeightTiles
    /\ col = int_add x (base.x cameraPos)
    /\ row = int_add y (base.y cameraPos)
    /\ reachesExtent col (Map.width m) = false
    /\ reachesExtent row (Map.height m) = false.
Proof.
  unfold worldCollisionPass, queriedTiles at 1.
  rewrite in_flat_map. intros [e [He Hq]].
  apply in_flat_map in He. destruct He as [y [Hy He]].
  apply in_flat_map in He. destruct He as [x [Hx He]].
  assert (Hin : In (col, row)
                   (queriedTiles (collisionPassTile cameraPos m x y))).
  { unfold queriedTiles. apply in_flat_map. eauto. }
  apply collisionPassTile_queries in Hin.
  exists x, y. apply upTo_In in Hx. apply upTo_In in Hy. tauto.
Qed.

End DebuggingFacts.

Section DebuggingClaims.
Context `{GT : GameTypes} `{EH : EngineHelpers}.

(** C7, as amended.  For every camera position whose coordinates are not
    negative and whose view-port columns and rows are representable as
    [int] (camera x + [mapViewPortWidthTiles] and camera y +
    [mapViewPortHeightTiles] at most [INT_MAX + 1]), and every map, each
    tile whose collision data or attributes one update of the debug overlay
    reads lies inside the grid: [0 <= col < width] and [0 <= row < height].
    The pass checks the upper bounds before it queries; the lower bounds
    follow from the camera.  The same holds for every camera position if
    the comparison with the map's extents rejects negative values, as it
    does when [width()] and [height()] have an unsigned type. *)
Theorem overlay_queries_inside_grid
    (d : DebuggingSystem) (cameraPos : Vector) (m : Map.t)
    (es : EntityManager) (col row : Z) :
  (0 <= x cameraPos /\ x cameraPos + mapViewPortWidthTiles <= INT_MAX + 1
   /\ 0 <= y cameraPos /\ y cameraPos + mapViewPortHeightTiles <= INT_MAX + 1)
  \/ (forall v extent,
         isInt v ->
         extent = Map.width m \/ extent = Map.height m ->
         reachesExtent v extent = false -> 0 <= v) ->
  In (col, row) (queriedTiles (DebuggingSystem_update d cameraPos m es)) ->
  0 <= col < Map.width m /\ 0 <= row < Map.height m.
Proof.
  intros Hcam Hin. unfold DebuggingSystem_update in Hin.
  rewrite !queriedTiles_app in Hin.
  apply in_app_or in Hin. destruct Hin as [Hin | Hin].
  - destruct (mShowWorldCollisionData d); [|contradiction].
    apply worldCollisionPass_queries in Hin.
    destruct Hin as [vx [vy [Hvx [Hvy [Hcol [Hrow [Hw Hh]]]]]]].
    assert (Hcolint : isInt col) by (rewrite Hcol; apply toInt_isInt).
    assert (Hrowint : isInt row) by (rewrite Hrow; apply toInt_isInt).
    pose proof (reachesExtent_below col (Map.width m) Hcolint Hw) as Hcw.
    pose proof (reachesExtent_below row (Map.height m) Hrowint Hh) as Hrh.
    destruct Hcam as [[Hx [Hxw [Hy Hyh]]] | Hunsigned].
    + unfold int_add in Hcol, Hrow. unfold INT_MAX in Hxw, Hyh.
      rewrite toInt_id in Hcol by (unfold isInt, INT_MIN, INT_MAX; lia).
      rewrite toInt_id in Hrow by (unfold isInt, INT_MIN, INT_MAX; lia).
      lia.
    + pose proof (Hunsigned col (Map.width m) Hcolint (or_introl eq_refl) Hw).
      pose proof (Hunsigned row (Map.height m) Hrowint (or_intror eq_refl) Hh).
      lia.
  - exfalso. apply in_app_or in Hin. destruct Hin as [Hin | Hin].
    + destruct (mShowBoundingBoxes d); [|contradiction].
      rewrite queriedTiles_renders in Hin; [contradiction|].
      apply boundingBoxPass_renders.
    + destruct (mShowGrid d); [|contradiction].
      rewrite queriedTiles_renders in Hin; [contradiction|].
      apply gridPass_renders.
Qed.

(** C8.  Each of the three display toggles is an involution, flips its own
    flag, and leaves the other two flags as they were. *)
Theorem toggles_are_independent_involutions (d : DebuggingSystem) :
  (toggleBoundingBoxDisplay (toggleBoundingBoxDisplay d) = d
   /\ toggleWorldCollisionDataDisplay (toggleWorldCollisionDataDisplay d) = d
   /\ toggleGridDisplay (toggleGridDisplay d) = d)
  /\ (mShowBoundingBoxes (toggleBoundingBoxDisplay d)
        = negb (mShowBoundingBoxes d)
      /\ mShowWorldCollisionData (toggleBoundingBoxDisplay d)
        = mShowWorldCollisionData d
      /\ mShowGrid (toggleBoundingBoxDisplay d) = mShowGrid d)
  /\ (mShowWorldCollisionData (toggleWorldCollisionDataDisplay d)
        = negb (mShowWorldCollisionData d)
      /\ mShowBoundingBoxes (toggleWorldCollisionDataDisplay d)
        = mShowBoundingBoxes d
      /\ mShowGrid (toggleWorldCollisionDataDisplay d) = mShowGrid d)
  /\ (mShowGrid (toggleGridDisplay d) = negb (mShowGrid d)
      /\ mShowBoundingBoxes (toggleGridDisplay d) = mShowBoundingBoxes d
      /\ mShowWorldCollisionData (toggleGridDisplay d)
        = mShowWorldCollisionData d).
Proof.
  destruct d as [boxes collision grid].
  unfold toggleBoundingBoxDisplay, toggleWorldCollisionDataDisplay,
    toggleGridDisplay; simpl.
  rewrite !negb_involutive. repeat split.
Qed.

(** C9, as amended.  With bounding-box display on, every entity with
    WorldPosition and BoundingBox has its world-space box drawn, in red if
    it is PlayerDamaging, else in yellow if it is a SolidBody, else in
    green; and every entity with WorldPosition and MapGeometryLink has the
    linked region drawn in cyan. *)
Theorem bounding_boxes_drawn_by_priority
    (d : DebuggingSystem) (cameraPos : Vector) (m : Map.t)
    (es : EntityManager) (entity : Entity) (pos : WorldPosition) :
  mShowBoundingBoxes d = true ->
  In entity es ->
  worldPosition entity = Some pos ->
  let drawn := renderCalls (DebuggingSystem_update d cameraPos m es) in
  let onScreen (r : Rect) :=
    mkRect (Vector_sub (tileVectorToPixelVector (topLeft r))
                       (tileVectorToPixelVector cameraPos))
           (tileExtentsToPixelExtents (size r)) in
  (forall bbox, boundingBox entity = Some bbox ->
     In (drawRectangle (onScreen (toWorldSpace bbox pos))
           (if playerDamaging entity then mkColor 255 0 0 255
            else if solidBody entity then mkColor 255 255 0 255
            else mkColor 0 255 0 255))
        drawn)
  /\ (forall section, mapGeometryLink entity = Some section ->
        In (drawRectangle (onScreen section) (mkColor 0 255 255 190))
           drawn).
Proof.
  intros Hon Hin Hpos drawn onScreen. subst drawn.
  unfold DebuggingSystem_update. rewrite Hon.
  rewrite !renderCalls_app. unfold boundingBoxPass.
  rewrite renderCalls_app.
  split.
  - intros bbox Hbox. apply in_or_app. right. apply in_or_app. left.
    apply in_or_app. left. apply In_renderCalls.
    unfold entityBoxPass. apply in_flat_map. exists entity.
    split; [assumption|]. rewrite Hpos, Hbox. left. reflexivity.
  - intros section Hlink. apply in_or_app. right. apply in_or_app. left.
    apply in_or_app. right. apply In_renderCalls.
    unfold geometryLinkPass. apply in_flat_map. exists entity.
    split; [assumption|]. rewrite Hpos, Hlink. left. reflexivity.
Qed.

End DebuggingClaims.

(** * Properties of the mode controller *)

Section ControllerFacts.
Context `{GT : GameTypes} `{EH : EngineHelpers} `{GS : @GameSystems GT}.

Lemma skipn_own_length {A : Type} (l1 l2 : list A) :
  skipn (length l1) (l1 ++ l2) = l2.
Proof. induction l1 as [|a l1 IH]; simpl; auto. Qed.

Lemma callsSince_extension (s s' : IngameMode) (l : list Call.t) :
  mCalls s' = mCalls s ++ l -> callsSince s s' = l.
Proof. intros H. unfold callsSince. rewrite H. apply skipn_own_length. Qed.

Lemma updatesOf_app (l1 l2 : list Call.t) :
  updatesOf (l1 ++ l2) = updatesOf l1 ++ updatesOf l2.
Proof. apply flat_map_app. Qed.

Lemma checksOf_app (l1 l2 : list Call.t) :
  checksOf (l1 ++ l2) = checksOf l1 ++ checksOf l2.
Proof. apply flat_map_app. Qed.

Lemma fadesOf_app (l1 l2 : list Call.t) :
  fadesOf (l1 ++ l2) = fadesOf l1 ++ fadesOf l2.
Proof. apply flat_map_app. Qed.

(** Setting the flag or recording a call does not move the player. *)
Lemma playerComponent_setLevelFinished {C : Type}
    (component : Entity -> option C) (b : bool) (s : IngameMode) :
  playerComponent component (setLevelFinished b s)
  = playerComponent component s.
Proof. reflexivity. Qed.

Lemma playerDead_called (c : Call.t) (s : IngameMode) :
  playerDead (called c s) = playerDead s.
Proof. reflexivity. Qed.

Lemma setLevelFinished_same (s : IngameMode) :
  setLevelFinished (mLevelFinished s) s = s.
Proof. destruct s; reflexivity. Qed.

(** *** The frame *)

(** The steps of a frame on a state given field by field. *)
Lemma called_mk w player inputs actors map0 model0 finished text d calls c :
  called c
    (mkIngameMode w player inputs actors map0 model0 finished text d calls)
  = mkIngameMode w player inputs actors map0 model0 finished text d
      (calls ++ [c]).
Proof. reflexivity. Qed.

Lemma withWorld_mk w player inputs actors map0 model0 finished text d calls
    f :
  withWorld f
    (mkIngameMode w player inputs actors map0 model0 finished text d calls)
  = mkIngameMode (f w) player inputs actors map0 model0 finished text d
      calls.
Proof. reflexivity. Qed.

Lemma systems_setInputState_mk
    w player inputs actors map0 model0 finished text d calls sys :
  systems_setInputState sys
    (mkIngameMode w player inputs actors map0 model0 finished text d calls)
  = mkIngameMode (system_setInputState sys inputs w) player inputs actors
      map0 model0 finished text d (calls ++ [Call.setInputState sys inputs]).
Proof. reflexivity. Qed.

Lemma systems_update_mk
    w player inputs actors map0 model0 finished text d calls sys dt :
  systems_update sys dt
    (mkIngameMode w player inputs actors map0 model0 finished text d calls)
  = mkIngameMode (updateWorld d inputs dt w sys) player inputs actors
      map0 model0 finished text d (calls ++ [Call.update sys dt]).
Proof. destruct sys; reflexivity. Qed.

(** The frame up to the rendering of the view port. *)
Lemma frame_unfolded
    w player inputs actors map0 model0 finished text d calls dt :
  updateAndRenderFrame dt
    (mkIngameMode w player inputs actors map0 model0 finished text d calls)
  = let s1 :=
      mkIngameMode (frameWorld d inputs dt w) player inputs actors map0
        model0 finished text d (calls ++ frameCalls inputs dt) in
    if text then showDebugText s1 else Done s1.
Proof.
  unfold updateAndRenderFrame. cbv zeta.
  repeat first [ rewrite systems_setInputState_mk
               | rewrite systems_update_mk
               | rewrite called_mk
               | rewrite withWorld_mk ].
  repeat rewrite <- app_assoc. reflexivity.
Qed.

(** A frame that runs to its end leaves the state described by
    [frameWorld] and [frameCalls]; [dbg] is the call of [showDebugText],
    if any. *)
Lemma frame_done (dt : TimeDelta) (s s1 : IngameMode) :
  updateAndRenderFrame dt s = Done s1 ->
  exists dbg,
    s1 = mkIngameMode
           (frameWorld (mDebuggingSystem s) (mPlayerInputs s) dt (mWorld s))
           (mPlayerEntity s) (mPlayerInputs s) (mInitialActors s)
           (mMapAtLevelStart s) (mPlayerModelAtLevelStart s)
           (mLevelFinished s) (mShowDebugText s) (mDebuggingSystem s)
           (mCalls s ++ frameCalls (mPlayerInputs s) dt ++ dbg)
    /\ updatesOf dbg = [] /\ checksOf dbg = [] /\ fadesOf dbg = [].
Proof.
  destruct s as [w player inputs actors map0 model0 finished text d calls].
  rewrite frame_unfolded. cbv zeta.
  cbn [mWorld mPlayerEntity mPlayerInputs mInitialActors mMapAtLevelStart
       mPlayerModelAtLevelStart mLevelFinished mShowDebugText
       mDebuggingSystem mCalls].
  destruct text.
  - unfold showDebugText.
    destruct (playerComponent worldPosition _) as [pos| |]; cbn [bind];
      try discriminate.
    destruct (playerComponent physical _) as [vel| |]; cbn [bind];
      try discriminate.
    intros H. injection H as <-.
    eexists [_].
    split; [rewrite called_mk, <- app_assoc; reflexivity | repeat split].
  - intros H. injection H as <-.
    exists []. split; [rewrite app_nil_r; reflexivity | repeat split].
Qed.

(** Without debug text the frame always runs to its end. *)
Lemma frame_returns (dt : TimeDelta) (s : IngameMode) :
  mShowDebugText s = false -> exists s1, updateAndRenderFrame dt s = Done s1.
Proof.
  destruct s as [w player inputs actors map0 model0 finished text d calls].
  cbn [mShowDebugText]. intros ->. rewrite frame_unfolded. cbv zeta. eauto.
Qed.

Lemma frame_calls (dt : TimeDelta) (s s1 : IngameMode) :
  updateAndRenderFrame dt s = Done s1 ->
  exists l,
    mCalls s1 = mCalls s ++ l
    /\ updatesOf l = updateRound dt /\ checksOf l = [] /\ fadesOf l = [].
Proof.
  intros H. apply frame_done in H.
  destruct H as [dbg [-> [Hu [Hc Hf]]]]. cbn.
  exists (frameCalls (mPlayerInputs s) dt ++ dbg).
  rewrite updatesOf_app, checksOf_app, fadesOf_app, Hu, Hc, Hf.
  repeat split.
Qed.

Lemma frame_settings (dt : TimeDelta) (s s1 : IngameMode) :
  updateAndRenderFrame dt s = Done s1 ->
  sameSettings s s1 /\ mLevelFinished s1 = mLevelFinished s.
Proof.
  intros H. apply frame_done in H. destruct H as [dbg [-> _]].
  split; reflexivity.
Qed.

(** *** The level-exit check *)

Lemma levelExitCallback_done (s s1 : IngameMode) (entity : Entity) :
  levelExitCallback s entity = Done s1 ->
  exists b, s1 = setLevelFinished b s /\ (mLevelFinished s = true -> b = true).
Proof.
  unfold levelExitCallback. intros H.
  assert (Hsame : exists b, s = setLevelFinished b s
                            /\ (mLevelFinished s = true -> b = true)).
  { exists (mLevelFinished s). split; [|auto].
    symmetry. apply setLevelFinished_same. }
  destruct (trigger entity) as [mType|];
    [|injection H as <-; exact Hsame].
  destruct (worldPosition entity) as [triggerPosition|];
    [|injection H as <-; exact Hsame].
  destruct (negb (isLevelExit mType) || mLevelFinished s) eqn:Hguard;
    [injection H as <-; exact Hsame|].
  apply orb_false_elim in Hguard. destruct Hguard as [_ Hflag].
  destruct (playerComponent worldPosition s) as [pos| |]; cbn in H;
    try discriminate.
  destruct (playerComponent boundingBox s) as [bbox| |]; cbn in H;
    try discriminate.
  injection H as <-. eexists. split; [reflexivity|]. congruence.
Qed.

Lemma eachEntity_exit_done (es : EntityManager) :
  forall s s',
    eachEntity levelExitCallback es s = Done s' ->
    exists b, s' = setLevelFinished b s
              /\ (mLevelFinished s = true -> b = true).
Proof.
  induction es as [|entity rest IH]; intros s s' H; cbn in H.
  - injection H as <-. exists (mLevelFinished s). split; [|auto].
    symmetry. apply setLevelFinished_same.
  - destruct (levelExitCallback s entity) as [s1| |] eqn:Hcb; cbn in H;
      try discriminate.
    apply levelExitCallback_done in Hcb. destruct Hcb as [b1 [-> Hb1]].
    apply IH in H. destruct H as [b [-> Hb]].
    exists b. split; [reflexivity|].
    intros Hflag. apply Hb. cbn. auto.
Qed.

(** The check changes the flag and the record of calls, nothing else,
    and never clears the flag. *)
Lemma exit_check_done (s s' : IngameMode) :
  checkForLevelExitReached s = Done s' ->
  exists b,
    s' = setLevelFinished b (called Call.checkForLevelExitReached s)
    /\ (mLevelFinished s = true -> b = true).
Proof.
  unfold checkForLevelExitReached. intros H.
  apply eachEntity_exit_done in H. exact H.
Qed.

Lemma eachEntity_exit_finished (es : EntityManager) :
  forall s, mLevelFinished s = true ->
            eachEntity levelExitCallback es s = Done s.
Proof.
  induction es as [|entity rest IH]; intros s Hflag; cbn; [reflexivity|].
  unfold levelExitCallback. rewrite Hflag.
  destruct (trigger entity) as [mType|]; cbn; [|now apply IH].
  destruct (worldPosition entity) as [triggerPosition|]; cbn;
    [|now apply IH].
  rewrite orb_true_r. cbn. now apply IH.
Qed.

Lemma exit_check_finished (s : IngameMode) :
  mLevelFinished s = true ->
  checkForLevelExitReached s
  = Done (called Call.checkForLevelExitReached s).
Proof.
  intros Hflag. unfold checkForLevelExitReached.
  apply eachEntity_exit_finished. exact Hflag.
Qed.

Lemma eachEntity_exit_value (pos : WorldPosition) (bbox : BoundingBox)
    (es : EntityManager) :
  forall s,
    playerComponent worldPosition s = Done pos ->
    playerComponent boundingBox s = Done bbox ->
    eachEntity levelExitCallback es s
    = Done (setLevelFinished
              (mLevelFinished s
               || levelExitTouched (toWorldSpace bbox pos) es) s).
Proof.
  induction es as [|entity rest IH]; intros s Hpos Hbox; cbn.
  - rewrite orb_false_r, setLevelFinished_same. reflexivity.
  - assert (Hcb :
      levelExitCallback s entity
      = Done (setLevelFinished
                (mLevelFinished s
                 || match trigger entity, worldPosition entity with
                    | Some mType, Some triggerPosition =>
                        isLevelExit mType
                        && touchesLevelExit (toWorldSpace bbox pos)
                                            triggerPosition
                    | _, _ => false
                    end) s)).
    { unfold levelExitCallback.
      destruct (trigger entity) as [mType|];
        [|now rewrite orb_false_r, setLevelFinished_same].
      destruct (worldPosition entity) as [triggerPosition|];
        [|now rewrite orb_false_r, setLevelFinished_same].
      destruct (mLevelFinished s) eqn:Hflag.
      - rewrite orb_true_r. cbn. rewrite <- Hflag.
        now rewrite setLevelFinished_same.
      - destruct (isLevelExit mType); cbn.
        + rewrite Hpos, Hbox. reflexivity.
        + rewrite <- Hflag. now rewrite setLevelFinished_same. }
    rewrite Hcb. cbn.
    rewrite IH by (rewrite playerComponent_setLevelFinished; assumption).
    cbn. rewrite orb_assoc. reflexivity.
Qed.

Lemma exit_check_value (pos : WorldPosition) (bbox : BoundingBox)
    (s : IngameMode) :
  playerComponent worldPosition s = Done pos ->
  playerComponent boundingBox s = Done bbox ->
  checkForLevelExitReached s
  = Done (setLevelFinished
            (mLevelFinished s
             || levelExitTouched (toWorldSpace bbox pos)
                                 (entities (mWorld s)))
            (called Call.checkForLevelExitReached s)).
Proof.
  intros Hpos Hbox. unfold checkForLevelExitReached.
  rewrite (eachEntity_exit_value pos bbox) by assumption. reflexivity.
Qed.

(** *** restartLevel and updateAndRender *)

(** The state in which the forced frame is entered. *)
Lemma resetLevelState_facts (s : IngameMode) :
  let r := resetLevelState s in
  mMap (mWorld r) = mMapAtLevelStart s
  /\ (entities (mWorld r), env (mWorld r), mPlayerEntity r)
     = createEntitiesForLevel (mInitialActors s) [] (env (mWorld s))
  /\ mPlayerModel (mWorld r) = mPlayerModelAtLevelStart s
  /\ mLevelFinished r = mLevelFinished s
  /\ sameSettings s r
  /\ mCalls r
     = mCalls s ++ [Call.entitiesReset; Call.createEntitiesForLevel].
Proof.
  destruct s as [w player inputs actors map0 model0 finished text d calls].
  unfold resetLevelState, sameSettings, settings. cbn.
  destruct (createEntitiesForLevel actors [] (env w)) as [[es v] p]. cbn.
  rewrite <- app_assoc. repeat split.
Qed.

(** One unfolding of [updateAndRender], for a call that returns. *)
Lemma updateAndRender_cases (fuel : nat) (dt : TimeDelta)
    (s s' : IngameMode) :
  updateAndRender fuel dt s = Done s' ->
  (mLevelFinished s = true /\ s' = s)
  \/ (mLevelFinished s = false
      /\ exists s1,
           updateAndRenderFrame dt s = Done s1
           /\ ((playerDead s1 = Done false
                /\ checkForLevelExitReached
                     (called Call.checkForPlayerDeath s1) = Done s')
               \/ (playerDead s1 = Done true
                   /\ exists n s2,
                        fuel = S (S n)
                        /\ updateAndRender (S n) zeroDelta
                             (resetLevelState
                                (called Call.fadeOutScreen
                                   (called Call.checkForPlayerDeath s1)))
                           = Done s2
                        /\ checkForLevelExitReached
                             (called Call.fadeInScreen s2) = Done s'))).
Proof.
  destruct fuel as [|fuel]; cbn; [discriminate|].
  destruct (mLevelFinished s) eqn:Hflag.
  - intros H. injection H as <-. left. auto.
  - intros H. right. split; [reflexivity|].
    destruct (updateAndRenderFrame dt s) as [s1| |]; cbn in H;
      try discriminate.
    exists s1. split; [reflexivity|].
    unfold checkForPlayerDeath in H. rewrite playerDead_called in H.
    destruct (playerDead s1) as [[|]| |]; cbn in H; try discriminate.
    + right. split; [reflexivity|].
      unfold restartLevel in H.
      destruct fuel as [|n]; [cbn in H; discriminate|].
      destruct (updateAndRender (S n) zeroDelta _) as [s2| |] eqn:Hnested;
        cbn in H; try discriminate.
      exists n, s2. auto.
    + left. auto.
Qed.

Lemma repeat_snoc {A : Type} (a : A) (n : nat) :
  repeat a n ++ [a] = a :: repeat a n.
Proof. induction n as [|n IH]; cbn; [reflexivity | now rewrite IH]. Qed.

(** What a returning call of [updateAndRender] leaves: the settings, a
    flag that was not cleared, and [k + 1] frames' worth of calls, where
    [k] counts the restarts. *)
Lemma updateAndRender_run (fuel : nat) :
  forall dt s s',
    updateAndRender fuel dt s = Done s' ->
    sameSettings s s'
    /\ (mLevelFinished s = true -> mLevelFinished s' = true)
    /\ exists l,
         mCalls s' = mCalls s ++ l
         /\ (mLevelFinished s = true -> l = [])
         /\ (mLevelFinished s = false ->
             playerDead s' = Done false
             /\ exists k,
                  updatesOf l
                  = updateRound dt
                    ++ concat (repeat (updateRound zeroDelta) k)
                  /\ checksOf l
                     = repeat DeathCheck (S k) ++ repeat ExitCheck (S k)
                  /\ fadesOf l = repeat true k ++ repeat false k).
Proof.
  induction fuel as [|fuel IH]; intros dt s s' H; [discriminate|].
  apply updateAndRender_cases in H.
  destruct H as [[Hflag ->] | [Hflag [s1 [Hframe Hrest]]]].
  { split; [reflexivity|]. split; [auto|].
    exists []. rewrite app_nil_r. split; [reflexivity|].
    split; [auto | congruence]. }
  destruct (frame_calls _ _ _ Hframe) as [l1 [Hl1 [Hu1 [Hc1 Hf1]]]].
  destruct (frame_settings _ _ _ Hframe) as [Hset1 Hflag1].
  destruct Hrest as [[Hdead Hexit] | [Hdead [n [s2 [Hn [Hnested Hexit]]]]]].
  - apply exit_check_done in Hexit. destruct Hexit as [b [-> _]].
    split; [exact Hset1|]. split; [congruence|].
    exists (l1 ++ [Call.checkForPlayerDeath; Call.checkForLevelExitReached]).
    split; [cbn; rewrite Hl1; repeat rewrite <- app_assoc; reflexivity|].
    split; [congruence|]. intros _. split; [exact Hdead|].
    exists 0%nat.
    rewrite updatesOf_app, checksOf_app, fadesOf_app, Hu1, Hc1, Hf1.
    cbn [updatesOf checksOf fadesOf flat_map app repeat concat].
    rewrite app_nil_r. repeat split.
  - injection Hn as ->.
    pose proof (resetLevelState_facts
                  (called Call.fadeOutScreen
                     (called Call.checkForPlayerDeath s1))) as Hreset.
    cbv zeta in Hreset.
    destruct Hreset as [_ [_ [_ [Hrflag [Hrset Hrcalls]]]]].
    apply IH in Hnested.
    destruct Hnested as [Hset2 [_ [l2 [Hl2 [_ Hshape]]]]].
    assert (Hrfalse :
      mLevelFinished
        (resetLevelState
           (called Call.fadeOutScreen (called Call.checkForPlayerDeath s1)))
      = false).
    { rewrite Hrflag. cbn. congruence. }
    destruct (Hshape Hrfalse) as [Halive [k [Hu2 [Hc2 Hf2]]]].
    apply exit_check_done in Hexit. destruct Hexit as [b [-> _]].
    split.
    { unfold sameSettings in *. cbn.
      change (settings s2 = settings s).
      rewrite Hset2, Hrset. exact Hset1. }
    split; [congruence|].
    exists (l1 ++ [Call.checkForPlayerDeath; Call.fadeOutScreen;
                   Call.entitiesReset; Call.createEntitiesForLevel]
               ++ l2 ++ [Call.fadeInScreen; Call.checkForLevelExitReached]).
    split.
    { cbn. rewrite Hl2, Hrcalls. cbn. rewrite Hl1.
      repeat rewrite <- app_assoc. reflexivity. }
    split; [congruence|]. intros _. split; [exact Halive|].
    exists (S k).
    repeat rewrite updatesOf_app. repeat rewrite checksOf_app.
    repeat rewrite fadesOf_app.
    rewrite Hu1, Hc1, Hf1, Hu2, Hc2, Hf2. cbn [updatesOf checksOf fadesOf
      flat_map app repeat concat].
    repeat split.
    + rewrite app_nil_r. reflexivity.
    + rewrite <- app_assoc. cbn [app]. rewrite repeat_snoc. reflexivity.
    + rewrite <- app_assoc. rewrite repeat_snoc. reflexivity.
Qed.

Lemma updateAndRender_S (fuel : nat) (dt : TimeDelta) (s : IngameMode) :
  updateAndRender (S fuel) dt s
  = if mLevelFinished s then Done s
    else
      s1 <- updateAndRenderFrame dt s ;;
      s2 <- checkForPlayerDeath (updateAndRender fuel) s1 ;;
      checkForLevelExitReached s2.
Proof. reflexivity. Qed.

Lemma callsSince_self (s : IngameMode) : callsSince s s = [].
Proof. apply callsSince_extension. now rewrite app_nil_r. Qed.

Lemma fadeOut_in_fades (l : list Call.t) :
  In Call.fadeOutScreen l -> In true (fadesOf l).
Proof.
  intros Hin. unfold fadesOf. apply in_flat_map.
  exists Call.fadeOutScreen. split; [assumption | now left].
Qed.

(** The death check looks at the player entity and the player model. *)
Lemma playerDead_ext (s s' : IngameMode) :
  mWorld s' = mWorld s -> mPlayerEntity s' = mPlayerEntity s ->
  playerDead s' = playerDead s.
Proof.
  intros Hw Hp. unfold playerDead, playerComponent. now rewrite Hw, Hp.
Qed.

Lemma handleEvent_facts (event : SDL_Event) (s : IngameMode) :
  mWorld (handleEvent event s) = mWorld s
  /\ mPlayerEntity (handleEvent event s) = mPlayerEntity s
  /\ mLevelFinished (handleEvent event s) = mLevelFinished s
  /\ mCalls (handleEvent event s) = mCalls s.
Proof.
  destruct event as [type key].
  destruct type, key; repeat split.
Qed.

(** In a run that starts with the flag clear, the flag is never set
    while the player is dead. *)
Lemma serveAll_no_death_pending (fuel : nat) (rs : list Request) :
  forall s s',
    (mLevelFinished s = true -> playerDead s = Done false) ->
    serveAll fuel rs s = Done s' ->
    mLevelFinished s' = true -> playerDead s' = Done false.
Proof.
  induction rs as [|r rest IH]; intros s s' Hinv H; cbn in H.
  - injection H as <-. exact Hinv.
  - destruct (serve fuel r s) as [s1| |] eqn:Hserve; cbn in H;
      try discriminate.
    apply (IH s1 s'); [|exact H].
    destruct r as [event | dt]; cbn in Hserve.
    + injection Hserve as <-.
      destruct (handleEvent_facts event s) as [Hw [Hp [Hflag _]]].
      rewrite Hflag, (playerDead_ext s _ Hw Hp). exact Hinv.
    + destruct (mLevelFinished s) eqn:Hs.
      * apply updateAndRender_cases in Hserve.
        destruct Hserve as [[_ ->] | [Hfalse _]]; [|congruence].
        rewrite Hs. exact Hinv.
      * apply updateAndRender_run in Hserve.
        destruct Hserve as [_ [_ [l [_ [_ Hshape]]]]].
        intros _. apply Hshape. exact Hs.
Qed.

Lemma playerComponent_ext {C : Type} (component : Entity -> option C)
    (s s' : IngameMode) :
  mWorld s' = mWorld s -> mPlayerEntity s' = mPlayerEntity s ->
  playerComponent component s' = playerComponent component s.
Proof. intros Hw Hp. unfold playerComponent. now rewrite Hw, Hp. Qed.

(** A player lookup finds the component or violates the contract. *)
Lemma playerComponent_no_fuel {C : Type} (component : Entity -> option C)
    (s : IngameMode) :
  playerComponent component s <> OutOfFuel.
Proof.
  unfold playerComponent.
  destruct (findEntity _ _) as [player|]; cbn; [|discriminate].
  destruct (component player); discriminate.
Qed.

Lemma fold_called_mk (l : list Call.t) :
  forall w player inputs actors map0 model0 finished text d calls,
    fold_left (fun s c => called c s) l
      (mkIngameMode w player inputs actors map0 model0 finished text d calls)
    = mkIngameMode w player inputs actors map0 model0 finished text d
        (calls ++ l).
Proof.
  induction l as [|c l IH]; intros; cbn [fold_left].
  - now rewrite app_nil_r.
  - rewrite called_mk, IH, <- app_assoc. reflexivity.
Qed.

(** The frame, in terms of the state after the systems. *)
Lemma frame_afterSystems (dt : TimeDelta) (s : IngameMode) :
  updateAndRenderFrame dt s
  = let s1 :=
      fold_left (fun s c => called c s) (frameCalls (mPlayerInputs s) dt)
                (afterSystems dt s) in
    if mShowDebugText s then showDebugText s1 else Done s1.
Proof.
  destruct s as [w player inputs actors map0 model0 finished text d calls].
  rewrite frame_unfolded. cbv zeta. unfold afterSystems.
  cbn [mShowDebugText mPlayerInputs mDebuggingSystem].
  rewrite withWorld_mk, fold_called_mk. reflexivity.
Qed.

Lemma calls_of_fold_called (l : list Call.t) :
  forall s,
    mCalls (fold_left (fun s c => called c s) l s) = mCalls s ++ l
    /\ mWorld (fold_left (fun s c => called c s) l s) = mWorld s
    /\ mPlayerEntity (fold_left (fun s c => called c s) l s)
       = mPlayerEntity s.
Proof.
  induction l as [|c l IH]; intros s; cbn [fold_left].
  - rewrite app_nil_r. auto.
  - destruct (IH (called c s)) as [Hc [Hw Hp]].
    rewrite Hc, Hw, Hp. cbn. rewrite <- app_assoc. auto.
Qed.

(** The state after the systems, the HUD and the rendering of the view
    port: its world, and the calls made to reach it. *)
Lemma frame_state (dt : TimeDelta) (s : IngameMode) :
  let s0 :=
    fold_left (fun s c => called c s) (frameCalls (mPlayerInputs s) dt)
              (afterSystems dt s) in
  mWorld s0
  = frameWorld (mDebuggingSystem s) (mPlayerInputs s) dt (mWorld s)
  /\ mPlayerEntity s0 = mPlayerEntity s
  /\ callsSince s s0 = frameCalls (mPlayerInputs s) dt.
Proof.
  cbv zeta.
  destruct (calls_of_fold_called (frameCalls (mPlayerInputs s) dt)
              (afterSystems dt s)) as [Hc [Hw Hp]].
  rewrite Hw, Hp. split; [|split].
  - destruct s; reflexivity.
  - destruct s; reflexivity.
  - apply callsSince_extension. rewrite Hc. destruct s; reflexivity.
Qed.

(** *** The death check, read on the player's state and health *)

Lemma PlayerState_eqb_Dead (playerState : PlayerState) :
  PlayerState_eqb playerState Dead = true <-> playerState = Dead.
Proof. destruct playerState; cbn; split; congruence. Qed.

Lemma playerDead_value (s : IngameMode) (playerState : PlayerState) :
  playerComponent playerControlled s = Done playerState ->
  playerDead s
  = Done (PlayerState_eqb playerState Dead
          && (mHealth (mPlayerModel (mWorld s)) <=? 0)).
Proof. intros H. unfold playerDead. rewrite H. reflexivity. Qed.

Lemma playerDead_true (s : IngameMode) (playerState : PlayerState) :
  playerComponent playerControlled s = Done playerState ->
  playerState = Dead /\ mHealth (mPlayerModel (mWorld s)) <= 0 ->
  playerDead s = Done true.
Proof.
  intros H [Hstate Hhealth]. rewrite (playerDead_value s playerState H).
  apply PlayerState_eqb_Dead in Hstate. apply Z.leb_le in Hhealth.
  now rewrite Hstate, Hhealth.
Qed.

Lemma playerDead_false (s : IngameMode) (playerState : PlayerState) :
  playerComponent playerControlled s = Done playerState ->
  playerState <> Dead \/ 0 < mHealth (mPlayerModel (mWorld s)) ->
  playerDead s = Done false.
Proof.
  intros H Halive. rewrite (playerDead_value s playerState H).
  destruct Halive as [Hstate | Hhealth].
  - destruct (PlayerState_eqb playerState Dead) eqn:Heq; [|reflexivity].
    apply PlayerState_eqb_Dead in Heq. contradiction.
  - apply Z.leb_gt in Hhealth. rewrite Hhealth, andb_false_r. reflexivity.
Qed.

Lemma playerDead_true_inv (s : IngameMode) :
  playerDead s = Done true ->
  exists playerState,
    playerComponent playerControlled s = Done playerState
    /\ playerState = Dead /\ mHealth (mPlayerModel (mWorld s)) <= 0.
Proof.
  unfold playerDead.
  destruct (playerComponent playerControlled s) as [playerState| |];
    cbn [bind]; try discriminate.
  intros H. injection H as H. apply andb_true_iff in H.
  destruct H as [Hstate Hhealth].
  exists playerState. split; [reflexivity|].
  split; [now apply PlayerState_eqb_Dead | now apply Z.leb_le].
Qed.

Lemma playerDead_false_inv (s : IngameMode) :
  playerDead s = Done false ->
  exists playerState,
    playerComponent playerControlled s = Done playerState
    /\ (playerState <> Dead \/ 0 < mHealth (mPlayerModel (mWorld s))).
Proof.
  unfold playerDead.
  destruct (playerComponent playerControlled s) as [playerState| |];
    cbn [bind]; try discriminate.
  intros H. injection H as H. apply andb_false_iff in H.
  exists playerState. split; [reflexivity|].
  destruct H as [Hstate | Hhealth].
  - left. intros Heq. apply PlayerState_eqb_Dead in Heq. congruence.
  - right. now apply Z.leb_gt.
Qed.

(** The death check records itself first, whatever follows. *)
Lemma death_check_calls (fuel : nat) (s1 s2 : IngameMode) :
  checkForPlayerDeath (updateAndRender fuel) s1 = Done s2 ->
  exists rest, mCalls s2 = mCalls s1 ++ Call.checkForPlayerDeath :: rest.
Proof.
  unfold checkForPlayerDeath. rewrite playerDead_called.
  destruct (playerDead s1) as [[|]| |]; cbn [bind]; try discriminate.
  - unfold restartLevel.
    destruct (updateAndRender fuel zeroDelta _) as [s3| |] eqn:Hnested;
      cbn [bind]; try discriminate.
    intros H. injection H as <-.
    apply updateAndRender_run in Hnested.
    destruct Hnested as [_ [_ [l [Hl _]]]].
    pose proof (resetLevelState_facts
                  (called Call.fadeOutScreen
                     (called Call.checkForPlayerDeath s1))) as Hreset.
    cbv zeta in Hreset.
    destruct Hreset as [_ [_ [_ [_ [_ Hrcalls]]]]].
    exists ([Call.fadeOutScreen; Call.entitiesReset;
             Call.createEntitiesForLevel] ++ l ++ [Call.fadeInScreen]).
    cbn [mCalls called]. rewrite Hl, Hrcalls. cbn [mCalls called].
    repeat rewrite <- app_assoc. reflexivity.
  - intros H. injection H as <-. exists []. reflexivity.
Qed.

(** *** The exit condition, read as inequalities *)

Lemma touchesLevelExit_iff (playerBBox : BoundingBox)
    (triggerPosition : WorldPosition) :
  touchesLevelExit playerBBox triggerPosition = true
  <-> Rect_bottom playerBBox <= y triggerPosition
      /\ Rect_left playerBBox <= x triggerPosition
         <= int_add (Rect_right playerBBox) 1.
Proof.
  unfold touchesLevelExit.
  rewrite !andb_true_iff, !Z.leb_le, Z.geb_le. tauto.
Qed.

Lemma levelExitTouched_iff (playerBBox : BoundingBox)
    (es : EntityManager) :
  levelExitTouched playerBBox es = true
  <-> exists entity triggerPosition,
        In entity es
        /\ trigger entity = Some LevelExit
        /\ worldPosition entity = Some triggerPosition
        /\ Rect_bottom playerBBox <= y triggerPosition
        /\ Rect_left playerBBox <= x triggerPosition
           <= int_add (Rect_right playerBBox) 1.
Proof.
  unfold levelExitTouched. rewrite existsb_exists. split.
  - intros [entity [Hin Hcond]].
    destruct (trigger entity) as [mType|] eqn:Htrigger; try discriminate.
    destruct (worldPosition entity) as [triggerPosition|] eqn:Hpos;
      try discriminate.
    destruct mType as [|tag]; cbn in Hcond; try discriminate.
    apply touchesLevelExit_iff in Hcond.
    exists entity, triggerPosition. tauto.
  - intros [entity [triggerPosition [Hin [Htrigger [Hpos Hcond]]]]].
    exists entity. split; [assumption|].
    rewrite Htrigger, Hpos. cbn. apply touchesLevelExit_iff. exact Hcond.
Qed.

End ControllerFacts.

Section ControllerClaims.
Context `{GT : GameTypes} `{EH : EngineHelpers} `{GS : @GameSystems GT}.

(** C6.  For every [dt], a call of [updateAndRender] with the
    level-finished flag set returns at once with the state it was given:
    no system is updated, nothing is rendered, neither check runs (the
    record of calls is part of the state). *)
Theorem finished_level_is_a_noop
    (fuel : nat) (dt : TimeDelta) (s : IngameMode) :
  mLevelFinished s = true ->
  updateAndRender (S fuel) dt s = Done s /\ callsSince s s = [].
Proof.
  intros Hflag. rewrite updateAndRender_S, Hflag.
  split; [reflexivity | apply callsSince_self].
Qed.

(** C4.  Once the level-finished flag is true it stays true: every
    sequence of [handleEvent] and [updateAndRender] calls on the same mode
    returns with the flag true, wherever the player is, and a level-exit
    check that finds the flag true leaves it true.  No member function
    clears it; only a newly constructed mode starts with it false. *)
Theorem level_finished_is_sticky (s : IngameMode) :
  mLevelFinished s = true ->
  (forall fuel rs,
      exists s', serveAll (S fuel) rs s = Done s'
                 /\ mLevelFinished s' = true)
  /\ (exists s', checkForLevelExitReached s = Done s'
                 /\ mLevelFinished s' = true).
Proof.
  intros Hflag. split.
  - intros fuel rs. revert s Hflag.
    induction rs as [|r rest IH]; intros s Hflag; cbn [serveAll serve].
    + eauto.
    + destruct r as [event | dt]; cbn [serve bind].
      * apply IH.
        destruct (handleEvent_facts event s) as [_ [_ [Hsame _]]].
        congruence.
      * rewrite updateAndRender_S, Hflag. cbn [bind].
        apply IH. exact Hflag.
  - rewrite exit_check_finished by exact Hflag. eauto.
Qed.

(** C5.  In every call of [updateAndRender] that is not a no-op the
    systems are updated in the order elevator, player movement, attack,
    player interaction, security camera, physics, player damage, damage
    infliction, animation, map scroll, rendering, debugging, whether or
    not the call returns afterwards: the call continues (debug text, death
    check, exit check) from a state [s0] whose world is the result of
    applying the updates one after the other in that order, and whose
    calls since the start contain exactly these updates in that order.
    In a call that returns, all further updates are whole rounds in the
    same order (the frames forced by restarts, with time step 0). *)
Theorem systems_update_in_fixed_order
    (dt : TimeDelta) (s : IngameMode) :
  mLevelFinished s = false ->
  let s0 :=
    fold_left (fun s c => called c s) (frameCalls (mPlayerInputs s) dt)
              (afterSystems dt s) in
  (forall fuel,
      updateAndRender (S fuel) dt s
      = (s1 <- (if mShowDebugText s then showDebugText s0 else Done s0) ;;
         s2 <- checkForPlayerDeath (updateAndRender fuel) s1 ;;
         checkForLevelExitReached s2))
  /\ mWorld s0
     = hud_updateAndRender dt
         (fold_left
            (updateWorld (mDebuggingSystem s) (mPlayerInputs s) dt)
            [ SystemId.ElevatorSystem; SystemId.PlayerMovementSystem;
              SystemId.AttackSystem; SystemId.PlayerInteractionSystem;
              SystemId.SecurityCameraSystem; SystemId.PhysicsSystem;
              SystemId.DamageSystem; SystemId.DamageInflictionSystem;
              SystemId.AnimationSystem; SystemId.MapScrollSystem;
              SystemId.RenderingSystem; SystemId.DebuggingSystem ]
            (system_setInputState SystemId.ElevatorSystem (mPlayerInputs s)
               (system_setInputState SystemId.AttackSystem
                  (mPlayerInputs s) (mWorld s))))
  /\ updatesOf (callsSince s s0)
     = [ (SystemId.ElevatorSystem, dt); (SystemId.PlayerMovementSystem, dt);
         (SystemId.AttackSystem, dt); (SystemId.PlayerInteractionSystem, dt);
         (SystemId.SecurityCameraSystem, dt); (SystemId.PhysicsSystem, dt);
         (SystemId.DamageSystem, dt); (SystemId.DamageInflictionSystem, dt);
         (SystemId.AnimationSystem, dt); (SystemId.MapScrollSystem, dt);
         (SystemId.RenderingSystem, dt); (SystemId.DebuggingSystem, dt) ]
  /\ (forall fuel s',
        updateAndRender fuel dt s = Done s' ->
        exists s1 k,
          updateAndRenderFrame dt s = Done s1
          /\ mWorld s1
             = frameWorld (mDebuggingSystem s) (mPlayerInputs s) dt
                          (mWorld s)
          /\ updatesOf (callsSince s s1)
             = map (fun sys => (sys, dt)) frameOrder
          /\ updatesOf (callsSince s s')
             = map (fun sys => (sys, dt)) frameOrder
               ++ concat
                    (repeat (map (fun sys => (sys, zeroDelta)) frameOrder)
                            k)).
Proof.
  intros Hflag s0.
  destruct (frame_state dt s) as [Hworld [_ Hcalls]]. fold s0 in Hworld, Hcalls.
  split.
  { intros fuel. rewrite updateAndRender_S, Hflag, frame_afterSystems.
    reflexivity. }
  split; [exact Hworld|].
  split; [rewrite Hcalls; reflexivity|].
  intros fuel s' Hrun.
  pose proof (updateAndRender_cases _ _ _ _ Hrun) as Hcases.
  destruct Hcases as [[Htrue _] | [_ [s1 [Hframe _]]]]; [congruence|].
  apply updateAndRender_run in Hrun.
  destruct Hrun as [_ [_ [l [Hl [_ Hshape]]]]].
  destruct (Hshape Hflag) as [_ [k [Hu _]]].
  destruct (frame_calls _ _ _ Hframe) as [l1 [Hl1 [Hu1 _]]].
  exists s1, k. split; [exact Hframe|].
  split.
  { apply frame_done in Hframe. destruct Hframe as [dbg [-> _]].
    reflexivity. }
  rewrite (callsSince_extension _ _ _ Hl1).
  rewrite (callsSince_extension _ _ _ Hl).
  split; assumption.
Qed.

(** C3, as amended.  In every call of [updateAndRender] that is not a
    no-op the player-death check is evaluated before the level-exit check:
    the exit check runs on the state that the death check returns (the
    restarted level, if the death check restarts), and it does not run in
    a call whose death check does not return.  When both return, the
    record of the frame reads: the calls before the checks, the death
    check, whatever a restart does, the exit check.  In a call that
    returns, both checks ran in every frame: with [k] restarts the call
    runs [k + 1] frames, and its checks are [k + 1] death checks followed
    by [k + 1] exit checks (the frame forced by a restart runs inside the
    death check of the frame that restarted). *)
Theorem death_check_precedes_exit_check
    (dt : TimeDelta) (s : IngameMode) :
  mLevelFinished s = false ->
  (forall fuel,
      updateAndRender (S fuel) dt s
      = (s1 <- updateAndRenderFrame dt s ;;
         s2 <- checkForPlayerDeath (updateAndRender fuel) s1 ;;
         checkForLevelExitReached s2))
  /\ (forall fuel s1,
        updateAndRenderFrame dt s = Done s1 ->
        (forall s2, checkForPlayerDeath (updateAndRender fuel) s1 <> Done s2) ->
        forall s', updateAndRender (S fuel) dt s <> Done s')
  /\ (forall fuel s1 s2 s',
        updateAndRenderFrame dt s = Done s1 ->
        checkForPlayerDeath (updateAndRender fuel) s1 = Done s2 ->
        checkForLevelExitReached s2 = Done s' ->
        updateAndRender (S fuel) dt s = Done s'
        /\ exists before restart,
             checksOf before = []
             /\ callsSince s s1 = before
             /\ callsSince s s'
                = before ++ [Call.checkForPlayerDeath] ++ restart
                  ++ [Call.checkForLevelExitReached])
  /\ (forall fuel s',
        updateAndRender fuel dt s = Done s' ->
        exists k,
          updatesOf (callsSince s s')
          = updateRound dt ++ concat (repeat (updateRound zeroDelta) k)
          /\ checksOf (callsSince s s')
             = repeat DeathCheck (S k) ++ repeat ExitCheck (S k)).
Proof.
  intros Hflag.
  assert (Hstep : forall fuel,
    updateAndRender (S fuel) dt s
    = (s1 <- updateAndRenderFrame dt s ;;
       s2 <- checkForPlayerDeath (updateAndRender fuel) s1 ;;
       checkForLevelExitReached s2)).
  { intros fuel. rewrite updateAndRender_S, Hflag. reflexivity. }
  split; [exact Hstep|]. split; [|split].
  - intros fuel s1 Hframe Hnone s' Hrun.
    rewrite Hstep, Hframe in Hrun. cbn [bind] in Hrun.
    destruct (checkForPlayerDeath (updateAndRender fuel) s1) as [s2| |]
      eqn:Hdeath; cbn [bind] in Hrun; try discriminate.
    exact (Hnone s2 eq_refl).
  - intros fuel s1 s2 s' Hframe Hdeath Hexit.
    split.
    { rewrite Hstep, Hframe. cbn [bind]. rewrite Hdeath. cbn [bind].
      exact Hexit. }
    destruct (frame_calls _ _ _ Hframe) as [l1 [Hl1 [_ [Hc1 _]]]].
    destruct (death_check_calls _ _ _ Hdeath) as [rest Hrest].
    apply exit_check_done in Hexit. destruct Hexit as [b [-> _]].
    exists l1, rest. split; [exact Hc1|].
    split; [exact (callsSince_extension _ _ _ Hl1)|].
    apply callsSince_extension. cbn [mCalls called setLevelFinished].
    rewrite Hrest, Hl1. repeat rewrite <- app_assoc. reflexivity.
  - intros fuel s' Hrun.
    apply updateAndRender_run in Hrun.
    destruct Hrun as [_ [_ [l [Hl [_ Hshape]]]]].
    destruct (Hshape Hflag) as [_ [k [Hu [Hc _]]]].
    exists k. rewrite (callsSince_extension _ _ _ Hl). split; assumption.
Qed.

(** C10, as amended.  [restartLevel] leaves the pending player input
    flags and the debug display toggles (bounding boxes, collision data,
    grid, debug text) unchanged, and it never clears the level-finished
    flag. *)
Theorem restart_keeps_inputs_and_overlays
    (fuel : nat) (s s' : IngameMode) :
  restartLevel (updateAndRender fuel) s = Done s' ->
  mPlayerInputs s' = mPlayerInputs s
  /\ mDebuggingSystem s' = mDebuggingSystem s
  /\ mShowDebugText s' = mShowDebugText s
  /\ (mLevelFinished s = true -> mLevelFinished s' = true).
Proof.
  unfold restartLevel. intros H.
  destruct (updateAndRender fuel zeroDelta _) as [s2| |] eqn:Hnested;
    cbn in H; try discriminate.
  injection H as <-.
  apply updateAndRender_run in Hnested.
  destruct Hnested as [Hset [Hmono _]].
  pose proof (resetLevelState_facts (called Call.fadeOutScreen s)) as Hreset.
  cbv zeta in Hreset.
  destruct Hreset as [_ [_ [_ [Hrflag [Hrset _]]]]].
  unfold sameSettings in Hset, Hrset. rewrite Hrset in Hset.
  unfold settings in Hset. cbn in Hset.
  injection Hset as Hinputs Hoverlays Htext _ _ _.
  split; [exact Hinputs|]. split; [exact Hoverlays|]. split; [exact Htext|].
  intros Hflag. apply Hmono. rewrite Hrflag. exact Hflag.
Qed.

(** C2, as amended.  When the level-exit check runs with the flag clear,
    the flag is set true exactly when, for some entity carrying a Trigger
    of type LevelExit plus a WorldPosition, the bottom edge of the
    player's box is at or above the trigger's y and the trigger's x lies
    within [left, right + 1], where [right + 1] is computed in [int]
    arithmetic: it is the sum for every right edge below [INT_MAX], and
    with the right edge at [INT_MAX] it wraps around, so that no trigger
    to the right of [INT_MIN] satisfies the condition.  In particular,
    with a trigger at (10, 5) and a player box with left 9, right 11,
    bottom 5 it becomes true; a player box with right < 9 or left > 11
    makes the condition false for that trigger. *)
Theorem level_exit_rule
    (s : IngameMode) (pos : WorldPosition) (bbox : BoundingBox) :
  mLevelFinished s = false ->
  playerComponent worldPosition s = Done pos ->
  playerComponent boundingBox s = Done bbox ->
  let playerBBox := toWorldSpace bbox pos in
  isInt (Rect_right playerBBox) ->
  (exists s',
      checkForLevelExitReached s = Done s'
      /\ (mLevelFinished s' = true
          <-> exists entity triggerPosition,
                In entity (entities (mWorld s))
                /\ trigger entity = Some LevelExit
                /\ worldPosition entity = Some triggerPosition
                /\ Rect_bottom playerBBox <= y triggerPosition
                /\ Rect_left playerBBox <= x triggerPosition
                   <= int_add (Rect_right playerBBox) 1)
      /\ (forall entity,
             In entity (entities (mWorld s)) ->
             trigger entity = Some LevelExit ->
             worldPosition entity = Some (mkVector 10 5) ->
             Rect_left playerBBox = 9 -> Rect_right playerBBox = 11 ->
             Rect_bottom playerBBox = 5 ->
             mLevelFinished s' = true))
  /\ (Rect_right playerBBox < INT_MAX ->
      int_add (Rect_right playerBBox) 1 = Rect_right playerBBox + 1)
  /\ (Rect_right playerBBox = INT_MAX ->
      int_add (Rect_right playerBBox) 1 = INT_MIN
      /\ forall triggerPosition,
           INT_MIN < x triggerPosition ->
           touchesLevelExit playerBBox triggerPosition = false)
  /\ (Rect_right playerBBox < 9 \/ Rect_left playerBBox > 11 ->
      touchesLevelExit playerBBox (mkVector 10 5) = false).
Proof.
  intros Hflag Hpos Hbox playerBBox Hint.
  assert (Hsmall : Rect_right playerBBox < INT_MAX ->
                   int_add (Rect_right playerBBox) 1
                   = Rect_right playerBBox + 1).
  { intros Hlt. unfold int_add. apply toInt_id.
    unfold isInt, INT_MIN, INT_MAX in *. lia. }
  split; [|split; [exact Hsmall|split]].
  - eexists. split; [apply (exit_check_value pos bbox); assumption|].
    cbn [mLevelFinished setLevelFinished]. rewrite Hflag. cbn [orb].
    fold playerBBox. split; [apply levelExitTouched_iff|].
    intros entity Hin Htrigger Hwhere Hl Hr Hb.
    apply levelExitTouched_iff. exists entity, (mkVector 10 5).
    rewrite Hl, Hr, Hb. change (int_add 11 1) with 12. cbn [x y].
    repeat split; try assumption; lia.
  - intros Hmax. rewrite Hmax.
    split; [reflexivity|].
    intros triggerPosition Hright.
    destruct (touchesLevelExit playerBBox triggerPosition) eqn:Htouch;
      [|reflexivity].
    apply touchesLevelExit_iff in Htouch. rewrite Hmax in Htouch.
    change (int_add INT_MAX 1) with INT_MIN in Htouch. lia.
  - intros Haway.
    destruct (touchesLevelExit playerBBox (mkVector 10 5)) eqn:Htouch;
      [|reflexivity].
    apply touchesLevelExit_iff in Htouch. cbn [x y] in Htouch.
    destruct Haway as [Hright | Hleft]; [|lia].
    rewrite Hsmall in Htouch by (unfold INT_MAX; lia). lia.
Qed.

(** C1.  A call of [updateAndRender] runs the level restart sequence
    exactly when its death check is reached and finds the player's
    PlayerControlled state [Dead] and [mHealth] of the player model at or
    below 0.  With the flag clear, the frame returning [s1] and the state
    of the player in [s1] being [playerState]: (1) if [playerState] is
    [Dead] and the health is at most 0, the rest of the call is the
    restart: the forced call with time step 0 on the reset state, the
    fade-in, the exit check; if the state is not [Dead] or the health is
    positive, the rest of the call is the exit check alone; (2) the reset
    state has the map and the player model of the level-start snapshots,
    the entities recreated from the initial actor list in an emptied
    manager, the flag clear, and is reached by a fade-out, the reset and
    the factory; in a call that returns the forced frame ran its round of
    updates in between; (3) the call does return: when the forced frame
    leaves the player alive, two levels of calls suffice.  For every call
    that returns, the restart ran if and only if the death check was
    reached with state [Dead] and health at most 0.  And (4) in a run that
    starts with the level-finished flag clear, the flag is never set while
    the player is dead, so the no-op of a finished level never hides a
    death. *)
Theorem restart_runs_exactly_on_observed_death
    (dt : TimeDelta) (s : IngameMode) :
  (forall s1 playerState,
      mLevelFinished s = false ->
      updateAndRenderFrame dt s = Done s1 ->
      playerComponent playerControlled s1 = Done playerState ->
      let health := mHealth (mPlayerModel (mWorld s1)) in
      let r := resetLevelState
                 (called Call.fadeOutScreen
                    (called Call.checkForPlayerDeath s1)) in
      (playerState = Dead /\ health <= 0 ->
       forall fuel,
         updateAndRender (S fuel) dt s
         = (s2 <- updateAndRender fuel zeroDelta r ;;
            checkForLevelExitReached (called Call.fadeInScreen s2)))
      /\ (playerState <> Dead \/ 0 < health ->
          forall fuel,
            updateAndRender (S fuel) dt s
            = checkForLevelExitReached (called Call.checkForPlayerDeath s1))
      /\ (mMap (mWorld r) = mMapAtLevelStart s
          /\ (entities (mWorld r), env (mWorld r), mPlayerEntity r)
             = createEntitiesForLevel (mInitialActors s) []
                                      (env (mWorld s1))
          /\ mPlayerModel (mWorld r) = mPlayerModelAtLevelStart s
          /\ mLevelFinished r = false
          /\ callsSince s1 r
             = [Call.checkForPlayerDeath; Call.fadeOutScreen;
                Call.entitiesReset; Call.createEntitiesForLevel])
      /\ (playerState = Dead /\ health <= 0 ->
          forall fuel s',
            updateAndRender fuel dt s = Done s' ->
            exists n s2,
              fuel = S (S n)
              /\ updateAndRender (S n) zeroDelta r = Done s2
              /\ (exists rest,
                    updatesOf (callsSince r s2)
                    = updateRound zeroDelta ++ rest)
              /\ callsSince s1 s'
                 = [Call.checkForPlayerDeath; Call.fadeOutScreen;
                    Call.entitiesReset; Call.createEntitiesForLevel]
                   ++ callsSince r s2
                   ++ [Call.fadeInScreen; Call.checkForLevelExitReached])
      /\ (playerState = Dead /\ health <= 0 ->
          forall s2 playerState2 s3 s4,
            updateAndRenderFrame zeroDelta r = Done s2 ->
            playerComponent playerControlled s2 = Done playerState2 ->
            playerState2 <> Dead
            \/ 0 < mHealth (mPlayerModel (mWorld s2)) ->
            checkForLevelExitReached (called Call.checkForPlayerDeath s2)
            = Done s3 ->
            checkForLevelExitReached (called Call.fadeInScreen s3)
            = Done s4 ->
            forall n, updateAndRender (S (S n)) dt s = Done s4))
  /\ (forall fuel s',
        updateAndRender fuel dt s = Done s' ->
        (restarted s s'
         <-> mLevelFinished s = false
             /\ exists s1 playerState,
                  updateAndRenderFrame dt s = Done s1
                  /\ playerComponent playerControlled s1 = Done playerState
                  /\ playerState = Dead
                  /\ mHealth (mPlayerModel (mWorld s1)) <= 0))
  /\ (forall fuel rs s',
        mLevelFinished s = false ->
        serveAll fuel rs s = Done s' ->
        mLevelFinished s' = true ->
        exists playerState,
          playerComponent playerControlled s' = Done playerState
          /\ (playerState <> Dead
              \/ 0 < mHealth (mPlayerModel (mWorld s')))).
Proof.
  split; [|split].
  - intros s1 playerState Hflag Hframe Hstate health r.
    pose proof (resetLevelState_facts
                  (called Call.fadeOutScreen
                     (called Call.checkForPlayerDeath s1))) as Hreset.
    cbv zeta in Hreset. fold r in Hreset.
    destruct Hreset as [Hrmap [Hres [Hrmodel [Hrflag [_ Hrcalls]]]]].
    cbn in Hrmap, Hres, Hrmodel, Hrflag, Hrcalls.
    destruct (frame_settings _ _ _ Hframe) as [Hset1 Hflag1].
    unfold sameSettings, settings in Hset1.
    injection Hset1 as _ _ _ Hactors Hmap0 Hmodel0.
    assert (Hrfalse : mLevelFinished r = false) by congruence.
    assert (Hdeadrun : playerState = Dead /\ health <= 0 ->
      forall fuel,
        updateAndRender (S fuel) dt s
        = (s2 <- updateAndRender fuel zeroDelta r ;;
           checkForLevelExitReached (called Call.fadeInScreen s2))).
    { intros Hdead fuel.
      rewrite updateAndRender_S, Hflag, Hframe. cbn [bind].
      unfold checkForPlayerDeath. rewrite playerDead_called.
      rewrite (playerDead_true s1 playerState Hstate Hdead). cbn [bind].
      unfold restartLevel. fold r.
      destruct (updateAndRender fuel zeroDelta r); reflexivity. }
    split; [exact Hdeadrun|]. split; [|split; [|split]].
    + intros Halive fuel.
      rewrite updateAndRender_S, Hflag, Hframe. cbn [bind].
      unfold checkForPlayerDeath. rewrite playerDead_called.
      rewrite (playerDead_false s1 playerState Hstate Halive).
      reflexivity.
    + split; [congruence|]. split; [congruence|]. split; [congruence|].
      split; [exact Hrfalse|].
      apply callsSince_extension. rewrite Hrcalls.
      repeat rewrite <- app_assoc. reflexivity.
    + intros Hdead fuel s' Hrun.
      destruct fuel as [|fuel]; [discriminate|].
      rewrite (Hdeadrun Hdead) in Hrun.
      destruct fuel as [|n]; [discriminate|].
      destruct (updateAndRender (S n) zeroDelta r) as [s2| |] eqn:Hnested;
        cbn [bind] in Hrun; try discriminate.
      exists n, s2. split; [reflexivity|]. split; [exact Hnested|].
      pose proof (updateAndRender_run _ _ _ _ Hnested) as Hshape.
      destruct Hshape as [_ [_ [l2 [Hl2 [_ Hshape]]]]].
      rewrite (callsSince_extension _ _ _ Hl2).
      split.
      * destruct (Hshape Hrfalse) as [_ [k [Hu _]]]. eauto.
      * apply exit_check_done in Hrun. destruct Hrun as [b [-> _]].
        apply callsSince_extension. cbn. rewrite Hl2, Hrcalls.
        repeat rewrite <- app_assoc. reflexivity.
    + intros Hdead s2 playerState2 s3 s4 Hframe0 Hstate2 Halive Hexit0 Hexit
             n.
      rewrite (Hdeadrun Hdead).
      rewrite updateAndRender_S, Hrfalse, Hframe0. cbn [bind].
      unfold checkForPlayerDeath. rewrite playerDead_called.
      rewrite (playerDead_false s2 playerState2 Hstate2 Halive).
      cbn [bind]. rewrite Hexit0. cbn [bind]. exact Hexit.
  - (* the restart ran iff the death was observed *)
    intros fuel s' Hrun. unfold restarted.
    pose proof (updateAndRender_cases _ _ _ _ Hrun) as Hcases.
    destruct Hcases as [[Hflag ->] | [Hflag [s1 [Hframe Hrest]]]].
    { rewrite callsSince_self. split; [contradiction|].
      intros [Hfalse _]. congruence. }
    destruct (frame_calls _ _ _ Hframe) as [l1 [Hl1 [_ [_ Hf1]]]].
    destruct Hrest as [[Hdead Hexit] | [Hdead [n [s2 [_ [Hnested Hexit]]]]]].
    + apply exit_check_done in Hexit. destruct Hexit as [b [-> _]].
      rewrite (callsSince_extension _ _
                 (l1 ++ [Call.checkForPlayerDeath;
                         Call.checkForLevelExitReached]))
        by (cbn; rewrite Hl1; repeat rewrite <- app_assoc; reflexivity).
      split.
      * intros Hin. apply fadeOut_in_fades in Hin.
        rewrite fadesOf_app, Hf1 in Hin. cbn in Hin. contradiction.
      * intros [_ [s1' [playerState [Hframe' [Hstate Hfound]]]]].
        assert (s1' = s1) by congruence. subst s1'.
        rewrite (playerDead_true s1 playerState Hstate Hfound) in Hdead.
        discriminate.
    + apply updateAndRender_run in Hnested.
      destruct Hnested as [_ [_ [l2 [Hl2 _]]]].
      pose proof (resetLevelState_facts
                    (called Call.fadeOutScreen
                       (called Call.checkForPlayerDeath s1))) as Hreset.
      cbv zeta in Hreset.
      destruct Hreset as [_ [_ [_ [_ [_ Hrcalls]]]]].
      apply exit_check_done in Hexit. destruct Hexit as [b [-> _]].
      rewrite (callsSince_extension _ _
                 (l1 ++ [Call.checkForPlayerDeath; Call.fadeOutScreen;
                         Call.entitiesReset; Call.createEntitiesForLevel]
                     ++ l2
                     ++ [Call.fadeInScreen; Call.checkForLevelExitReached]))
        by (cbn; rewrite Hl2, Hrcalls; cbn; rewrite Hl1;
            repeat rewrite <- app_assoc; reflexivity).
      split.
      * intros _. split; [exact Hflag|].
        apply playerDead_true_inv in Hdead.
        destruct Hdead as [playerState [Hstate Hfound]].
        exists s1, playerState. auto.
      * intros _. apply in_or_app. right. right. left. reflexivity.
  - (* no death is pending when the flag is set *)
    intros fuel rs s' Hflag Hrun Hset.
    apply playerDead_false_inv.
    apply (serveAll_no_death_pending fuel rs s s');
      [congruence | exact Hrun | exact Hset].
Qed.

End ControllerClaims.

(** * The claims on concrete inputs *)

Section DemoFacts.
#[local] Existing Instance demoTypes.
#[local] Existing Instance demoHelpers.
#[local] Existing Instance demoSystems.

Lemma demoRestarted_run :
  updateAndRender 2 16 demoDeadAtExit = Done demoRestarted.
Proof. vm_compute. reflexivity. Qed.

Lemma demoExited_run : updateAndRender 1 16 demoAtExit = Done demoExited.
Proof. vm_compute. reflexivity. Qed.

Lemma demoRestartedAtExit_run :
  restartLevel (updateAndRender 1) demoStartsAtExit
  = Done demoRestartedAtExit.
Proof. vm_compute. reflexivity. Qed.

Lemma demoDeadFrame_run :
  updateAndRenderFrame 16 demoDeadAtExit = Done demoDeadFrame.
Proof. vm_compute. reflexivity. Qed.

Lemma demoAliveFrame_run :
  updateAndRenderFrame 16 demoAtExit = Done demoAliveFrame.
Proof. vm_compute. reflexivity. Qed.

(** C7 as stated fails where the extents of the map are of type [int],
    the type of the coordinates that are compared with them.  With the
    camera one tile to the left of the map, the world-collision pass reads
    the tile in column -1, which passes the check [col >= width] and lies
    outside the grid.  And with the camera at column 2147483644 the sum
    for the fifth column of the view port wraps around to -2147483648,
    which passes the check as well. *)
Lemma overlay_queries_left_of_grid :
  (In (-1, 0)
      (queriedTiles
         (DebuggingSystem_update demoOverlays (mkVector (-1) 0)
            (demoMap 64 32) []))
   /\ ~ (0 <= -1 < Map.width (demoMap 64 32)))
  /\ (0 <= x (mkVector 2147483644 0) /\ 0 <= y (mkVector 2147483644 0)
      /\ In (-2147483648, 0)
            (queriedTiles
               (DebuggingSystem_update demoOverlays (mkVector 2147483644 0)
                  (demoMap 64 32) []))
      /\ ~ (0 <= -2147483648 < Map.width (demoMap 64 32))).
Proof.
  split.
  - split; [|cbn; lia].
    vm_compute. left. reflexivity.
  - split; [cbn; lia|]. split; [cbn; lia|]. split; [|cbn; lia].
    vm_compute. left. reflexivity.
Qed.

(** C9 as stated fails.  With bounding-box display on, an entity that has
    a MapGeometryLink and no WorldPosition is not visited by
    [each<WorldPosition, MapGeometryLink>]: nothing is drawn for it. *)
Lemma geometry_link_without_position_not_drawn :
  mShowBoundingBoxes demoOnlyBoxes = true
  /\ mapGeometryLink (demoLinkOnly 0 demoSection) = Some demoSection
  /\ renderCalls
       (DebuggingSystem_update demoOnlyBoxes (mkVector 0 0) (demoMap 64 32)
          [demoLinkOnly 0 demoSection])
     = [].
Proof. repeat split. Qed.

(** C2 as stated fails.  The box of the example moved two tiles to the
    left has left 7, right 9, bottom 5: its right edge is below 10, and
    the exit at (10, 5) still finishes the level, because the code accepts
    a trigger one tile to the right of the box.  And with two exits the flag
    is set by the one the player touches, although the condition is false
    for the other. *)
Lemma level_exit_reached_with_right_below_ten :
  (let playerBBox :=
     toWorldSpace (mkRect (mkVector 0 0) (mkSize 3 5)) (mkVector 7 5) in
   playerComponent worldPosition demoLeftOfExit = Done (mkVector 7 5)
   /\ playerComponent boundingBox demoLeftOfExit
      = Done (mkRect (mkVector 0 0) (mkSize 3 5))
   /\ Rect_left playerBBox = 7 /\ Rect_right playerBBox = 9
   /\ Rect_bottom playerBBox = 5
   /\ Rect_right playerBBox < 10
   /\ touchesLevelExit playerBBox (mkVector 10 5) = true
   /\ exists s',
        checkForLevelExitReached demoLeftOfExit = Done s'
        /\ mLevelFinished s' = true)
  /\ (let playerBBox :=
        toWorldSpace (mkRect (mkVector 0 0) (mkSize 3 5)) (mkVector 9 5) in
      In (demoExit 2 (mkVector 40 5)) (entities (mWorld demoTwoExits))
      /\ touchesLevelExit playerBBox (mkVector 40 5) = false
      /\ exists s',
           checkForLevelExitReached demoTwoExits = Done s'
           /\ mLevelFinished s' = true).
Proof.
  cbv zeta. split.
  - repeat split.
    eexists. split; [vm_compute; reflexivity | reflexivity].
  - split; [right; right; left; reflexivity|].
    split; [reflexivity|].
    eexists. split; [vm_compute; reflexivity | reflexivity].
Qed.

(** C3 as stated fails.  In a frame of a living player the death check is
    the first of the two checks.  And with the player dead at the exit,
    an exit check before the death check would set the flag, which then
    stays set; the code restarts the level first and checks the exit on
    the restarted level, where the player is away from it. *)
Lemma death_check_is_evaluated_first :
  (updateAndRender 1 16 demoAtExit = Done demoExited
   /\ checksOf (callsSince demoAtExit demoExited) = [DeathCheck; ExitCheck])
  /\ (updateAndRenderFrame 16 demoDeadAtExit = Done demoDeadFrame
      /\ exists s1',
           checkForLevelExitReached demoDeadFrame = Done s1'
           /\ mLevelFinished s1' = true)
  /\ updateAndRender 2 16 demoDeadAtExit = Done demoRestarted
  /\ checksOf (callsSince demoDeadAtExit demoRestarted)
     = [DeathCheck; DeathCheck; ExitCheck; ExitCheck]
  /\ mLevelFinished demoRestarted = false.
Proof.
  split; [split; [exact demoExited_run | vm_compute; reflexivity]|].
  split.
  { split; [exact demoDeadFrame_run|].
    eexists. split; [vm_compute; reflexivity | reflexivity]. }
  split; [exact demoRestarted_run|].
  split; vm_compute; reflexivity.
Qed.

(** C10 as stated fails.  In a level that starts at its exit, the frame
    forced by [restartLevel] reaches the exit: the level-finished flag is
    false before [restartLevel] and true after it. *)
Lemma restart_can_finish_the_level :
  restartLevel (updateAndRender 1) demoStartsAtExit
  = Done demoRestartedAtExit
  /\ mLevelFinished demoStartsAtExit = false
  /\ mLevelFinished demoRestartedAtExit = true.
Proof.
  split; [exact demoRestartedAtExit_run|].
  split; vm_compute; reflexivity.
Qed.

(** With extents of an unsigned type, the comparison rejects the negative
    columns and rows. *)
Lemma unsigned_extent_rejects_negative (v extent : Z) :
  isInt v ->
  extent = Map.width (demoMap 64 32) \/ extent = Map.height (demoMap 64 32) ->
  reachesExtent (EngineHelpers := demoUnsignedHelpers) v extent = false ->
  0 <= v.
Proof.
  intros Hint Hextent H. unfold isInt, INT_MIN, INT_MAX in Hint.
  cbn in H. rewrite Z.geb_leb in H. apply Z.leb_gt in H.
  destruct (Z_lt_le_dec v 0) as [Hneg | Hpos]; [|exact Hpos].
  exfalso.
  assert (Hmod : v mod 18446744073709551616 = v + 18446744073709551616).
  { symmetry. apply (Z.mod_unique _ _ (-1)); lia. }
  destruct Hextent as [-> | ->]; cbn in H; lia.
Qed.

Lemma demoUnsigned_reads_first_column :
  In (0, 0)
     (queriedTiles
        (DebuggingSystem_update (EH := demoUnsignedHelpers) demoOverlays
           (mkVector (-1) 0) (demoMap 64 32) [])).
Proof. vm_compute. left. reflexivity. Qed.

Lemma demoSigned_reads_last_tile :
  In (63, 31)
     (queriedTiles
        (DebuggingSystem_update demoOverlays (mkVector 63 31)
           (demoMap 64 32) [])).
Proof. vm_compute. left. reflexivity. Qed.

(** The amended C7 at the camera position (63, 31), where the only tile of
    the view port that passes the guard is the last tile of the map; and,
    with extents of an unsigned type, at the camera position (-1, 0), where
    the first column that passes the guard is column 0. *)
Lemma overlay_queries_inside_grid_witness :
  (0 <= 63 < Map.width (demoMap 64 32)
   /\ 0 <= 31 < Map.height (demoMap 64 32))
  /\ (0 <= 0 < Map.width (demoMap 64 32)
      /\ 0 <= 0 < Map.height (demoMap 64 32)).
Proof.
  split.
  - apply (overlay_queries_inside_grid demoOverlays (mkVector 63 31)
             (demoMap 64 32) [] 63 31).
    + left. unfold INT_MAX. cbn. lia.
    + exact demoSigned_reads_last_tile.
  - apply (overlay_queries_inside_grid (EH := demoUnsignedHelpers)
             demoOverlays (mkVector (-1) 0) (demoMap 64 32) [] 0 0).
    + right. exact unsigned_extent_rejects_negative.
    + exact demoUnsigned_reads_first_column.
Defined.

(** The amended C9 at an elevator platform: a solid body that does not
    damage the player, with a position and a geometry link. *)
Lemma bounding_boxes_drawn_by_priority_witness :
  let drawn :=
    renderCalls
      (DebuggingSystem_update demoOnlyBoxes (mkVector 0 0) (demoMap 64 32)
         demoEntities) in
  In (drawRectangle (mkRect (mkVector 24 24) (mkSize 32 8))
                    (mkColor 255 255 0 255)) drawn
  /\ In (drawRectangle (mkRect (mkVector 8 8) (mkSize 16 16))
                       (mkColor 0 255 255 190)) drawn.
Proof.
  cbv zeta.
  destruct (bounding_boxes_drawn_by_priority demoOnlyBoxes (mkVector 0 0)
              (demoMap 64 32) demoEntities
              (demoElevator 1 (mkVector 3 3) demoSection) (mkVector 3 3)
              eq_refl (or_intror (or_introl eq_refl)) eq_refl)
    as [Hbox Hlink].
  split.
  - exact (Hbox (mkRect (mkVector 0 0) (mkSize 4 1)) eq_refl).
  - exact (Hlink demoSection eq_refl).
Defined.

(** C6 and C4 at a finished level. *)
Lemma finished_level_is_a_noop_witness :
  updateAndRender 1 16 demoFinished = Done demoFinished
  /\ callsSince demoFinished demoFinished = [].
Proof. exact (finished_level_is_a_noop 0 16 demoFinished eq_refl). Defined.

Lemma level_finished_is_sticky_witness :
  exists s',
    serveAll 1
      [UpdateAndRender 16; HandleEvent (mkEvent SDL_KEYDOWN SDLK_LEFT);
       UpdateAndRender 16; HandleEvent (mkEvent SDL_KEYUP SDLK_b);
       UpdateAndRender 16]
      demoFinished = Done s'
    /\ mLevelFinished s' = true.
Proof.
  destruct (level_finished_is_sticky demoFinished eq_refl) as [Hrun _].
  apply Hrun.
Defined.

Lemma demoDeadFrame_state :
  playerComponent playerControlled demoDeadFrame = Done Dead
  /\ mHealth (mPlayerModel (mWorld demoDeadFrame)) = 0.
Proof. split; vm_compute; reflexivity. Qed.

Lemma demoAliveFrame_state :
  playerComponent playerControlled demoAliveFrame = Done Standing
  /\ mHealth (mPlayerModel (mWorld demoAliveFrame)) = 9.
Proof. split; vm_compute; reflexivity. Qed.

Lemma demoDeadHealthyFrame_run :
  updateAndRenderFrame 16 demoDeadHealthy = Done demoDeadHealthyFrame.
Proof. vm_compute. reflexivity. Qed.

Lemma demoDeadHealthyFrame_state :
  playerComponent playerControlled demoDeadHealthyFrame = Done Dead
  /\ mHealth (mPlayerModel (mWorld demoDeadHealthyFrame)) = 9.
Proof. split; vm_compute; reflexivity. Qed.

Lemma demoStandingNoHealthFrame_run :
  updateAndRenderFrame 16 demoStandingNoHealth
  = Done demoStandingNoHealthFrame.
Proof. vm_compute. reflexivity. Qed.

Lemma demoStandingNoHealthFrame_state :
  playerComponent playerControlled demoStandingNoHealthFrame = Done Standing
  /\ mHealth (mPlayerModel (mWorld demoStandingNoHealthFrame)) = 0.
Proof. split; vm_compute; reflexivity. Qed.

Lemma demoDeadNegativeFrame_run :
  updateAndRenderFrame 16 demoDeadNegative = Done demoDeadNegativeFrame.
Proof. vm_compute. reflexivity. Qed.

Lemma demoDeadNegativeFrame_state :
  playerComponent playerControlled demoDeadNegativeFrame = Done Dead
  /\ mHealth (mPlayerModel (mWorld demoDeadNegativeFrame)) = -3.
Proof. split; vm_compute; reflexivity. Qed.

(** C5 and C3 at the call that restarts [demoDeadAtExit]. *)
Lemma systems_update_in_fixed_order_witness :
  exists k,
    updatesOf (callsSince demoDeadAtExit demoRestarted)
    = updateRound 16 ++ concat (repeat (updateRound 0) k).
Proof.
  pose proof (systems_update_in_fixed_order (GT := demoTypes) 16
                demoDeadAtExit eq_refl) as Horder.
  cbv zeta in Horder. destruct Horder as [_ [_ [_ Hall]]].
  destruct (Hall 2%nat demoRestarted demoRestarted_run)
    as [s1 [k [_ [_ [_ Hrounds]]]]].
  exists k. exact Hrounds.
Defined.

Lemma death_check_precedes_exit_check_witness :
  exists k,
    checksOf (callsSince demoDeadAtExit demoRestarted)
    = repeat DeathCheck (S k) ++ repeat ExitCheck (S k).
Proof.
  destruct (death_check_precedes_exit_check (GT := demoTypes) 16
              demoDeadAtExit eq_refl) as [_ [_ [_ Hall]]].
  destruct (Hall 2%nat demoRestarted demoRestarted_run) as [k [_ Hchecks]].
  exists k. exact Hchecks.
Defined.

(** C1 at five frames: dead without health and dead with health below
    zero restart the level; dead with health left, standing without health
    and standing with health do not. *)
Lemma restart_runs_exactly_on_observed_death_witness :
  (forall fuel,
      updateAndRender (S fuel) 16 demoDeadAtExit
      = (s2 <- updateAndRender fuel 0 (demoReset demoDeadFrame) ;;
         checkForLevelExitReached (called Call.fadeInScreen s2)))
  /\ (forall fuel,
        updateAndRender (S fuel) 16 demoDeadNegative
        = (s2 <- updateAndRender fuel 0 (demoReset demoDeadNegativeFrame) ;;
           checkForLevelExitReached (called Call.fadeInScreen s2)))
  /\ (forall fuel,
        updateAndRender (S fuel) 16 demoDeadHealthy
        = checkForLevelExitReached
            (called Call.checkForPlayerDeath demoDeadHealthyFrame))
  /\ (forall fuel,
        updateAndRender (S fuel) 16 demoStandingNoHealth
        = checkForLevelExitReached
            (called Call.checkForPlayerDeath demoStandingNoHealthFrame))
  /\ (forall fuel,
        updateAndRender (S fuel) 16 demoAtExit
        = checkForLevelExitReached
            (called Call.checkForPlayerDeath demoAliveFrame))
  /\ restarted demoDeadAtExit demoRestarted
  /\ ~ restarted demoAtExit demoExited.
Proof.
  destruct demoDeadFrame_state as [Hstate1 Hhealth1].
  destruct demoDeadNegativeFrame_state as [Hstate2 Hhealth2].
  destruct demoDeadHealthyFrame_state as [Hstate3 Hhealth3].
  destruct demoStandingNoHealthFrame_state as [Hstate4 Hhealth4].
  destruct demoAliveFrame_state as [Hstate5 Hhealth5].
  split; [|split; [|split; [|split; [|split; [|split]]]]].
  - destruct (restart_runs_exactly_on_observed_death (GT := demoTypes) 16
                demoDeadAtExit) as [Hmain _].
    pose proof (Hmain demoDeadFrame Dead eq_refl demoDeadFrame_run Hstate1)
      as Hparts.
    cbv zeta in Hparts. destruct Hparts as [Hdead _].
    apply Hdead. split; [reflexivity|]. rewrite Hhealth1. lia.
  - destruct (restart_runs_exactly_on_observed_death (GT := demoTypes) 16
                demoDeadNegative) as [Hmain _].
    pose proof (Hmain demoDeadNegativeFrame Dead eq_refl
                  demoDeadNegativeFrame_run Hstate2) as Hparts.
    cbv zeta in Hparts. destruct Hparts as [Hdead _].
    apply Hdead. split; [reflexivity|]. rewrite Hhealth2. lia.
  - destruct (restart_runs_exactly_on_observed_death (GT := demoTypes) 16
                demoDeadHealthy) as [Hmain _].
    pose proof (Hmain demoDeadHealthyFrame Dead eq_refl
                  demoDeadHealthyFrame_run Hstate3) as Hparts.
    cbv zeta in Hparts. destruct Hparts as [_ [Halive _]].
    apply Halive. right. rewrite Hhealth3. lia.
  - destruct (restart_runs_exactly_on_observed_death (GT := demoTypes) 16
                demoStandingNoHealth) as [Hmain _].
    pose proof (Hmain demoStandingNoHealthFrame Standing eq_refl
                  demoStandingNoHealthFrame_run Hstate4) as Hparts.
    cbv zeta in Hparts. destruct Hparts as [_ [Halive _]].
    apply Halive. left. discriminate.
  - destruct (restart_runs_exactly_on_observed_death (GT := demoTypes) 16
                demoAtExit) as [Hmain _].
    pose proof (Hmain demoAliveFrame Standing eq_refl demoAliveFrame_run
                  Hstate5) as Hparts.
    cbv zeta in Hparts. destruct Hparts as [_ [Halive _]].
    apply Halive. left. discriminate.
  - destruct (restart_runs_exactly_on_observed_death (GT := demoTypes) 16
                demoDeadAtExit) as [_ [Hiff _]].
    apply (Hiff 2%nat demoRestarted demoRestarted_run).
    split; [reflexivity|].
    exists demoDeadFrame, Dead.
    split; [exact demoDeadFrame_run|]. split; [exact Hstate1|].
    split; [reflexivity|]. rewrite Hhealth1. lia.
  - destruct (restart_runs_exactly_on_observed_death (GT := demoTypes) 16
                demoAtExit) as [_ [Hiff _]].
    intros Hrestarted.
    apply (Hiff 1%nat demoExited demoExited_run) in Hrestarted.
    destruct Hrestarted as [_ [s1 [playerState [Hframe [Hstate [Hdead _]]]]]].
    rewrite demoAliveFrame_run in Hframe. injection Hframe as <-.
    rewrite Hstate5 in Hstate. injection Hstate as <-.
    discriminate Hdead.
Defined.

(** The amended C10 at the restart of [demoStartsAtExit]. *)
Lemma restart_keeps_inputs_and_overlays_witness :
  mPlayerInputs demoRestartedAtExit = demoInputs
  /\ mDebuggingSystem demoRestartedAtExit = demoOverlays
  /\ mShowDebugText demoRestartedAtExit = false.
Proof.
  destruct (restart_keeps_inputs_and_overlays 1 demoStartsAtExit
              demoRestartedAtExit demoRestartedAtExit_run)
    as [Hinputs [Hoverlays [Htext _]]].
  repeat split; assumption.
Defined.

(** The amended C2 at the example of the specification. *)
Lemma level_exit_rule_witness :
  exists s',
    checkForLevelExitReached demoAtExit = Done s'
    /\ mLevelFinished s' = true.
Proof.
  assert (Hint : isInt (Rect_right
                          (toWorldSpace (mkRect (mkVector 0 0) (mkSize 3 5))
                                        (mkVector 9 5)))).
  { unfold isInt, INT_MIN, INT_MAX. cbn. lia. }
  destruct (level_exit_rule demoAtExit (mkVector 9 5)
              (mkRect (mkVector 0 0) (mkSize 3 5)) eq_refl eq_refl eq_refl
              Hint)
    as [[s' [Hrun [_ Hexample]]] _].
  exists s'. split; [exact Hrun|].
  apply (Hexample (demoExit 1 (mkVector 10 5)));
    [right; left; reflexivity | reflexivity ..].
Defined.

End DemoFacts.

(** * Further properties: file names and debug text *)

Section FileNameFacts.
Import String Ascii.

Lemma length_append (a b : string) :
  String.length (append a b) = (String.length a + String.length b)%nat.
Proof. induction a as [|c a IH]; cbn; [reflexivity | now rewrite IH]. Qed.

Lemma length_spaces (n : nat) : String.length (spaces n) = n.
Proof. induction n as [|n IH]; cbn; [reflexivity | now rewrite IH]. Qed.

Lemma length_setw (width : Z) (text : string) :
  String.length (setw width text)
  = Nat.max (Z.to_nat width) (String.length text).
Proof. unfold setw. rewrite length_append, length_spaces. lia. Qed.

Lemma In_upTo (n i : Z) : 0 <= i < n -> In i (upTo n).
Proof.
  intros Hi. unfold upTo. apply in_map_iff.
  exists (Z.to_nat i). split; [lia|]. apply in_seq. lia.
Qed.

(** The decimal text of a number from -999 to 9999 has at most four
    characters, by inspection of all of them. *)
Lemma to_string_four (n : Z) :
  -999 <= n <= 9999 -> (String.length (to_string n) <= 4)%nat.
Proof.
  intros Hn.
  assert (Hall :
    forallb (fun i => (String.length (to_string (i - 999)) <=? 4)%nat)
            (upTo 10999) = true) by (vm_compute; reflexivity).
  rewrite forallb_forall in Hall.
  assert (Hin : In (n + 999) (upTo 10999)) by (apply In_upTo; lia).
  specialize (Hall (n + 999) Hin).
  replace (n + 999 - 999) with n in Hall by lia.
  now apply Nat.leb_le.
Qed.

Lemma episode_cases (episode : Z) :
  0 <= episode < 4 ->
  episode = 0 \/ episode = 1 \/ episode = 2 \/ episode = 3.
Proof. lia. Qed.

Lemma level_cases (level : Z) :
  0 <= level < 8 ->
  level = 0 \/ level = 1 \/ level = 2 \/ level = 3
  \/ level = 4 \/ level = 5 \/ level = 6 \/ level = 7.
Proof. lia. Qed.

Lemma levelFileName_valid (episode level : Z) (name : string) :
  levelFileName episode level = Done name ->
  0 <= episode < 4 /\ 0 <= level < 8.
Proof.
  unfold levelFileName.
  destruct (episode >=? 0) eqn:He0; [|discriminate].
  destruct (episode <? 4) eqn:He4; [|discriminate].
  destruct (level >=? 0) eqn:Hl0; [|discriminate].
  destruct (level <? 8) eqn:Hl8; [|discriminate].
  intros _. rewrite Z.geb_le in He0, Hl0.
  apply Z.ltb_lt in He4. apply Z.ltb_lt in Hl8. lia.
Qed.

Lemma loadingScreenFileName_valid (episode : Z) (name : string) :
  loadingScreenFileName episode = Done name -> 0 <= episode < 4.
Proof.
  unfold loadingScreenFileName.
  destruct (episode >=? 0) eqn:He0; [|discriminate].
  destruct (episode <? 4) eqn:He4; [|discriminate].
  intros _. rewrite Z.geb_le in He0. apply Z.ltb_lt in He4. lia.
Qed.

(** X1.  [levelFileName] yields a name exactly for episodes 0 to 3 and
    levels 0 to 7; the name is the letter of the episode, the digit of
    [level + 1] and the extension, six characters in all.  Outside that
    range an assertion fails. *)
Theorem levelFileName_on_and_off_range (episode level : Z) :
  (0 <= episode < 4 /\ 0 <= level < 8
   /\ exists prefix,
        nth_error EPISODE_PREFIXES (Z.to_nat episode) = Some prefix
        /\ levelFileName episode level
           = Done (String prefix
                     (String (ascii_of_nat (49 + Z.to_nat level)) ".MNI")))
  \/ (~ (0 <= episode < 4 /\ 0 <= level < 8)
      /\ levelFileName episode level = ContractViolation).
Proof.
  assert (Hrange : (0 <= episode < 4 /\ 0 <= level < 8)
                   \/ ~ (0 <= episode < 4 /\ 0 <= level < 8)) by lia.
  destruct Hrange as [[He Hl] | Hoff].
  - left. split; [exact He|]. split; [exact Hl|].
    apply episode_cases in He. apply level_cases in Hl.
    destruct He as [-> | [-> | [-> | ->]]];
      destruct Hl as [-> | [-> | [-> | [-> | [-> | [-> | [-> | ->]]]]]]];
      eexists; split; reflexivity.
  - right. split; [exact Hoff|]. unfold levelFileName.
    destruct (episode >=? 0) eqn:He0; [|reflexivity].
    destruct (episode <? 4) eqn:He4; [|reflexivity].
    destruct (level >=? 0) eqn:Hl0; [|reflexivity].
    destruct (level <? 8) eqn:Hl8; [|reflexivity].
    exfalso. apply Hoff. rewrite Z.geb_le in He0, Hl0.
    apply Z.ltb_lt in He4. apply Z.ltb_lt in Hl8. lia.
Qed.

(** X2.  Different levels are loaded from different files: on the names
    they yield, [levelFileName] and [loadingScreenFileName] are injective,
    and no loading screen shares its file with a level. *)
Theorem file_names_do_not_collide :
  (forall episode level episode' level' name,
      levelFileName episode level = Done name ->
      levelFileName episode' level' = Done name ->
      episode = episode' /\ level = level')
  /\ (forall episode episode' name,
         loadingScreenFileName episode = Done name ->
         loadingScreenFileName episode' = Done name ->
         episode = episode')
  /\ (forall episode episode' level' name,
         loadingScreenFileName episode = Done name ->
         levelFileName episode' level' <> Done name).
Proof.
  split; [|split].
  - intros episode level episode' level' name H H'.
    pose proof (levelFileName_valid _ _ _ H) as [He Hl].
    pose proof (levelFileName_valid _ _ _ H') as [He' Hl'].
    rewrite <- H' in H. clear H'.
    apply episode_cases in He, He'. apply level_cases in Hl, Hl'.
    destruct He as [-> | [-> | [-> | ->]]];
      destruct He' as [-> | [-> | [-> | ->]]];
      try (exfalso; destruct Hl as [-> | [-> | [-> | [-> | [-> | [-> | [-> | ->]]]]]]];
           destruct Hl' as [-> | [-> | [-> | [-> | [-> | [-> | [-> | ->]]]]]]];
           discriminate H);
      (split; [reflexivity|]);
      destruct Hl as [-> | [-> | [-> | [-> | [-> | [-> | [-> | ->]]]]]]];
      destruct Hl' as [-> | [-> | [-> | [-> | [-> | [-> | [-> | ->]]]]]]];
      first [reflexivity | discriminate H].
  - intros episode episode' name H H'.
    pose proof (loadingScreenFileName_valid _ _ H) as He.
    pose proof (loadingScreenFileName_valid _ _ H') as He'.
    rewrite <- H' in H. clear H'.
    apply episode_cases in He, He'.
    destruct He as [-> | [-> | [-> | ->]]];
      destruct He' as [-> | [-> | [-> | ->]]];
      first [reflexivity | discriminate H].
  - intros episode episode' level' name H H'.
    pose proof (loadingScreenFileName_valid _ _ H) as He.
    pose proof (levelFileName_valid _ _ _ H') as [He' Hl'].
    rewrite <- H' in H. clear H'.
    apply episode_cases in He, He'. apply level_cases in Hl'.
    destruct He as [-> | [-> | [-> | ->]]];
      destruct He' as [-> | [-> | [-> | ->]]];
      destruct Hl' as [-> | [-> | [-> | [-> | [-> | [-> | [-> | ->]]]]]]];
      discriminate H.
Qed.

(** X3.  The debug text of an integer vector is never shorter than two
    fields of [width] characters and the separator, and it has exactly that
    length when both numbers fit their field; with the width 4 used by
    [showDebugText] this is the case for coordinates from -999 to 9999, so
    that the text then has 10 characters. *)
Theorem vec2String_has_fixed_width (vec : Vector) (width : Z) :
  String.length (vec2String vec width)
  = (Nat.max (Z.to_nat width) (String.length (to_string (x vec)))
     + 2
     + Nat.max (Z.to_nat width) (String.length (to_string (y vec))))%nat
  /\ (width = 4 -> -999 <= x vec <= 9999 -> -999 <= y vec <= 9999 ->
      String.length (vec2String vec width) = 10%nat).
Proof.
  assert (Hlen :
    String.length (vec2String vec width)
    = (Nat.max (Z.to_nat width) (String.length (to_string (x vec)))
       + 2
       + Nat.max (Z.to_nat width) (String.length (to_string (y vec))))%nat).
  { unfold vec2String. rewrite !length_append, !length_setw. cbn. lia. }
  split; [exact Hlen|].
  intros -> Hx Hy. rewrite Hlen.
  apply to_string_four in Hx. apply to_string_four in Hy.
  change (Z.to_nat 4) with 4%nat. lia.
Qed.

End FileNameFacts.

(** * Further properties of the debugging system *)

Section MoreDebuggingFacts.
Context `{GT : GameTypes} `{EH : EngineHelpers}.

Lemma In_queriedTiles (e : Effect) (l : list Effect) (col row : Z) :
  In e l ->
  e = QueryCollisionData col row \/ e = QueryAttributes col row ->
  In (col, row) (queriedTiles l).
Proof.
  intros Hin He. unfold queriedTiles. apply in_flat_map.
  exists e. split; [assumption|].
  destruct He as [-> | ->]; now left.
Qed.

Lemma mapReads_app (l1 l2 : list Effect) :
  mapReads (l1 ++ l2) = mapReads l1 ++ mapReads l2.
Proof. apply filter_app. Qed.

Lemma mapReads_flat_map {A : Type} (f : A -> list Effect) (l : list A) :
  mapReads (flat_map f l) = flat_map (fun a => mapReads (f a)) l.
Proof.
  induction l as [|a l IH]; [reflexivity|].
  cbn [flat_map]. rewrite mapReads_app, IH. reflexivity.
Qed.

(** An effect list made of renderer calls reads nothing of the map. *)
Lemma mapReads_renders (l : list Effect) :
  (forall e, In e l -> exists c, e = Render c) -> mapReads l = [].
Proof.
  induction l as [|e l IH]; intros Hall; [reflexivity|].
  destruct (Hall e (or_introl eq_refl)) as [c ->]. cbn.
  apply IH. intros e' He'. apply Hall. now right.
Qed.

Lemma mapReads_tile (cameraPos : Vector) (m : Map.t) (x y : Z) :
  mapReads (collisionPassTile cameraPos m x y) = tileReads cameraPos m x y.
Proof.
  unfold collisionPassTile, tileReads.
  destruct (reachesExtent (int_add x (base.x cameraPos)) (Map.width m)
            || reachesExtent (int_add y (base.y cameraPos)) (Map.height m));
    [reflexivity|].
  unfold mapReads, isSolidOn. cbn [flat_map fst snd app].
  destruct (Map.collisionData m _ _ SolidEdge.top),
           (Map.collisionData m _ _ SolidEdge.right),
           (Map.collisionData m _ _ SolidEdge.bottom),
           (Map.collisionData m _ _ SolidEdge.left),
           (isClimbable _), (isLadder _), (isFlammable _);
    reflexivity.
Qed.

Lemma worldCollisionPass_reads (cameraPos : Vector) (m : Map.t) :
  mapReads (worldCollisionPass cameraPos m)
  = flat_map
      (fun y =>
         flat_map (fun x => tileReads cameraPos m x y)
                  (upTo mapViewPortWidthTiles))
      (upTo mapViewPortHeightTiles).
Proof.
  unfold worldCollisionPass. rewrite mapReads_flat_map.
  apply flat_map_ext. intros y. rewrite mapReads_flat_map.
  apply flat_map_ext. intros x. apply mapReads_tile.
Qed.

Lemma update_reads (d : DebuggingSystem) (cameraPos : Vector) (m : Map.t)
    (es : EntityManager) :
  mapReads (DebuggingSystem_update d cameraPos m es)
  = if mShowWorldCollisionData d then
      flat_map
        (fun y =>
           flat_map (fun x => tileReads cameraPos m x y)
                    (upTo mapViewPortWidthTiles))
        (upTo mapViewPortHeightTiles)
    else [].
Proof.
  unfold DebuggingSystem_update. rewrite !mapReads_app.
  rewrite (mapReads_renders
             (if mShowBoundingBoxes d then boundingBoxPass cameraPos es
              else []))
    by (destruct (mShowBoundingBoxes d);
        [apply boundingBoxPass_renders | intros e []]).
  rewrite (mapReads_renders (if mShowGrid d then gridPass else []))
    by (destruct (mShowGrid d); [apply gridPass_renders | intros e []]).
  rewrite !app_nil_r.
  destruct (mShowWorldCollisionData d);
    [apply worldCollisionPass_reads | reflexivity].
Qed.

(** A read of the map is among the effects exactly if it is among the
    reads. *)
Lemma In_mapReads (e : Effect) (l : list Effect) (col row : Z) :
  e = QueryCollisionData col row \/ e = QueryAttributes col row ->
  (In e l <-> In e (mapReads l)).
Proof.
  intros He. unfold mapReads. rewrite filter_In.
  destruct He as [-> | ->]; tauto.
Qed.

(** Which reads the window of a camera without overflow contains. *)
Lemma window_reads (cameraPos : Vector) (m : Map.t) (e : Effect)
    (col row : Z) :
  INT_MIN <= x cameraPos ->
  x cameraPos + mapViewPortWidthTiles <= INT_MAX + 1 ->
  INT_MIN <= y cameraPos ->
  y cameraPos + mapViewPortHeightTiles <= INT_MAX + 1 ->
  e = QueryCollisionData col row \/ e = QueryAttributes col row ->
  In e (flat_map
          (fun y =>
             flat_map (fun x => tileReads cameraPos m x y)
                      (upTo mapViewPortWidthTiles))
          (upTo mapViewPortHeightTiles))
  <-> x cameraPos <= col < x cameraPos + mapViewPortWidthTiles
      /\ y cameraPos <= row < y cameraPos + mapViewPortHeightTiles
      /\ reachesExtent col (Map.width m) = false
      /\ reachesExtent row (Map.height m) = false.
Proof.
  intros Hx Hxw Hy Hyh He.
  assert (Hadd : forall v c bound,
            INT_MIN <= c -> c + bound <= INT_MAX + 1 -> 0 <= v < bound ->
            int_add v c = v + c).
  { intros v c bound Hc Hcb Hv. unfold int_add. apply toInt_id.
    unfold isInt, INT_MIN, INT_MAX in *. lia. }
  split.
  - intros Hin. apply in_flat_map in Hin. destruct Hin as [vy [Hvy Hin]].
    apply in_flat_map in Hin. destruct Hin as [vx [Hvx Hin]].
    apply upTo_In in Hvx. apply upTo_In in Hvy.
    unfold tileReads in Hin.
    destruct (reachesExtent (int_add vx (x cameraPos)) (Map.width m))
      eqn:Hc; [contradiction|].
    destruct (reachesExtent (int_add vy (y cameraPos)) (Map.height m))
      eqn:Hr; [contradiction|].
    cbn [orb] in Hin. cbv iota in Hin.
    assert (Hcoords : col = int_add vx (x cameraPos)
                      /\ row = int_add vy (y cameraPos)).
    { destruct He as [-> | ->];
        repeat (destruct Hin as [Hin | Hin];
                [try discriminate; injection Hin as <- <-; auto|]);
        contradiction. }
    destruct Hcoords as [-> ->].
    rewrite (Hadd vx _ _ Hx Hxw Hvx) in *.
    rewrite (Hadd vy _ _ Hy Hyh Hvy) in *.
    repeat split; try assumption; lia.
  - intros [Hcol [Hrow [Hc Hr]]].
    apply in_flat_map.
    exists (row - y cameraPos). split; [apply In_upTo; lia|].
    apply in_flat_map.
    exists (col - x cameraPos). split; [apply In_upTo; lia|].
    unfold tileReads.
    rewrite (Hadd (col - x cameraPos) _ _ Hx Hxw) by lia.
    rewrite (Hadd (row - y cameraPos) _ _ Hy Hyh) by lia.
    replace (col - x cameraPos + x cameraPos) with col by lia.
    replace (row - y cameraPos + y cameraPos) with row by lia.
    rewrite Hc, Hr. cbn [orb]. cbv iota.
    destruct He as [-> | ->]; [left | right; left]; reflexivity.
Qed.

(** X4.  One update of the debug overlay reads the map only in its
    world-collision display, and there, for each tile of the view port
    that passes the guard, row by row, the collision data once and the
    attributes three times (for climbable, ladder, flammable); it reads
    nothing when the display is off.  For a camera whose view-port window
    has [int] coordinates, the collision data of a tile is read if and
    only if its attributes are, and that if and only if the display is on,
    the tile lies within the window of [mapViewPortWidthTiles] by
    [mapViewPortHeightTiles] tiles at the camera position, and neither
    coordinate reaches the map's extent. *)
Theorem collision_pass_reads_the_viewport_window
    (d : DebuggingSystem) (cameraPos : Vector) (m : Map.t)
    (es : EntityManager) :
  mapReads (DebuggingSystem_update d cameraPos m es)
  = (if mShowWorldCollisionData d then
       flat_map
         (fun y =>
            flat_map
              (fun x =>
                 let col := int_add x (base.x cameraPos) in
                 let row := int_add y (base.y cameraPos) in
                 if reachesExtent col (Map.width m)
                    || reachesExtent row (Map.height m)
                 then []
                 else [ QueryCollisionData col row; QueryAttributes col row;
                        QueryAttributes col row; QueryAttributes col row ])
              (upTo mapViewPortWidthTiles))
         (upTo mapViewPortHeightTiles)
     else [])
  /\ (INT_MIN <= x cameraPos ->
      x cameraPos + mapViewPortWidthTiles <= INT_MAX + 1 ->
      INT_MIN <= y cameraPos ->
      y cameraPos + mapViewPortHeightTiles <= INT_MAX + 1 ->
      forall col row,
        let window :=
          mShowWorldCollisionData d = true
          /\ x cameraPos <= col < x cameraPos + mapViewPortWidthTiles
          /\ y cameraPos <= row < y cameraPos + mapViewPortHeightTiles
          /\ reachesExtent col (Map.width m) = false
          /\ reachesExtent row (Map.height m) = false in
        (In (QueryCollisionData col row)
            (DebuggingSystem_update d cameraPos m es) <-> window)
        /\ (In (QueryAttributes col row)
               (DebuggingSystem_update d cameraPos m es) <-> window)
        /\ (In (col, row)
               (queriedTiles (DebuggingSystem_update d cameraPos m es))
            <-> window)).
Proof.
  split; [apply update_reads|].
  intros Hx Hxw Hy Hyh col row window.
  assert (Hread : forall e,
            e = QueryCollisionData col row \/ e = QueryAttributes col row ->
            (In e (DebuggingSystem_update d cameraPos m es) <-> window)).
  { intros e He.
    rewrite (In_mapReads e _ col row He), update_reads. unfold window.
    destruct (mShowWorldCollisionData d).
    - rewrite (window_reads cameraPos m e col row Hx Hxw Hy Hyh He). tauto.
    - split; [contradiction|]. intros [Hon _]. discriminate Hon. }
  split; [apply Hread; left; reflexivity|].
  split; [apply Hread; right; reflexivity|].
  split.
  - intros Hin. unfold queriedTiles in Hin. apply in_flat_map in Hin.
    destruct Hin as [e [He Hq]].
    destruct e as [c r | c r | call]; cbn in Hq; try contradiction;
      destruct Hq as [Hq | []]; injection Hq as -> ->.
    + apply (Hread (QueryCollisionData col row)); [left; reflexivity|].
      exact He.
    + apply (Hread (QueryAttributes col row)); [right; reflexivity|].
      exact He.
  - intros Hwindow.
    apply (In_queriedTiles (QueryCollisionData col row));
      [|left; reflexivity].
    apply (Hread (QueryCollisionData col row)); [left; reflexivity|].
    exact Hwindow.
Qed.

Lemma renderCalls_cons_render (c : RenderCall) (l : list Effect) :
  renderCalls (Render c :: l) = c :: renderCalls l.
Proof. reflexivity. Qed.

Lemma entityBoxPass_count (cameraPos : Vector) (es : EntityManager) :
  length (renderCalls (entityBoxPass cameraPos es))
  = length (filter hasBox es).
Proof.
  unfold entityBoxPass, hasBox.
  induction es as [|entity rest IH]; [reflexivity|].
  cbn [flat_map filter]. rewrite renderCalls_app.
  rewrite length_app, IH.
  destruct (worldPosition entity); [|reflexivity].
  destruct (boundingBox entity); reflexivity.
Qed.

Lemma geometryLinkPass_count (cameraPos : Vector) (es : EntityManager) :
  length (renderCalls (geometryLinkPass cameraPos es))
  = length (filter hasLink es).
Proof.
  unfold geometryLinkPass, hasLink.
  induction es as [|entity rest IH]; [reflexivity|].
  cbn [flat_map filter]. rewrite renderCalls_app.
  rewrite length_app, IH.
  destruct (worldPosition entity); [|reflexivity].
  destruct (mapGeometryLink entity); reflexivity.
Qed.

(** X5.  The bounding-box display draws nothing but what the entities
    call for: one rectangle for each entity with WorldPosition and
    BoundingBox and one for each entity with WorldPosition and
    MapGeometryLink, no lines, and no colour other than red, yellow, green
    and the cyan of the links.  Entities without a WorldPosition never
    appear. *)
Theorem bounding_box_pass_draws_only_entities
    (cameraPos : Vector) (es : EntityManager) :
  length (renderCalls (boundingBoxPass cameraPos es))
  = (length (filter hasBox es) + length (filter hasLink es))%nat
  /\ forall c,
       In c (renderCalls (boundingBoxPass cameraPos es)) ->
       exists r color,
         c = drawRectangle r color
         /\ (color = mkColor 255 0 0 255 \/ color = mkColor 255 255 0 255
             \/ color = mkColor 0 255 0 255 \/ color = mkColor 0 255 255 190).
Proof.
  split.
  - unfold boundingBoxPass.
    rewrite renderCalls_app, length_app, entityBoxPass_count,
      geometryLinkPass_count. reflexivity.
  - intros c Hin. unfold renderCalls in Hin. apply in_flat_map in Hin.
    destruct Hin as [e [He Hc]]. unfold boundingBoxPass in He.
    apply in_app_or in He. destruct He as [He | He];
      apply in_flat_map in He; destruct He as [entity [_ He]];
      destruct (worldPosition entity); try contradiction.
    + destruct (boundingBox entity); try contradiction.
      destruct He as [<- | []]. destruct Hc as [<- | []].
      eexists. eexists. split; [reflexivity|].
      unfold colorForEntity.
      destruct (playerDamaging entity); [tauto|].
      destruct (solidBody entity); tauto.
    + destruct (mapGeometryLink entity); try contradiction.
      destruct He as [<- | []]. destruct Hc as [<- | []].
      eexists. eexists. split; [reflexivity | tauto].
Qed.

Lemma renderCalls_map_render (A : Type) (f : A -> RenderCall) (l : list A) :
  renderCalls (map (fun a => Render (f a)) l) = map f l.
Proof.
  induction l as [|a l IH]; [reflexivity|].
  cbn [map]. rewrite renderCalls_cons_render, IH. reflexivity.
Qed.

Lemma length_upTo (n : Z) : length (upTo n) = Z.to_nat n.
Proof. unfold upTo. now rewrite length_map, length_seq. Qed.

(** X6.  The grid display draws one horizontal line for each row and one
    vertical line for each column of the view port, rows first and each
    across the whole view port: as many lines as the view port has rows
    and columns, and none when it has neither. *)
Theorem grid_pass_draws_one_line_per_row_and_column :
  renderCalls gridPass
  = map (fun row =>
           drawLine 0 (tilesToPixels row)
                    (tilesToPixels mapViewPortWidthTiles) (tilesToPixels row)
                    (mkColor 255 255 255 190))
        (upTo mapViewPortHeightTiles)
    ++ map (fun col =>
              drawLine (tilesToPixels col) 0 (tilesToPixels col)
                       (tilesToPixels mapViewPortHeightTiles)
                       (mkColor 255 255 255 190))
           (upTo mapViewPortWidthTiles)
  /\ length (renderCalls gridPass)
     = (Z.to_nat mapViewPortHeightTiles + Z.to_nat mapViewPortWidthTiles)%nat.
Proof.
  assert (Hcalls :
    renderCalls gridPass
    = map (fun row =>
             drawLine 0 (tilesToPixels row)
                      (tilesToPixels mapViewPortWidthTiles)
                      (tilesToPixels row) (mkColor 255 255 255 190))
          (upTo mapViewPortHeightTiles)
      ++ map (fun col =>
                drawLine (tilesToPixels col) 0 (tilesToPixels col)
                         (tilesToPixels mapViewPortHeightTiles)
                         (mkColor 255 255 255 190))
             (upTo mapViewPortWidthTiles)).
  { unfold gridPass. cbv zeta. rewrite renderCalls_app.
    rewrite !renderCalls_map_render. reflexivity. }
  split; [exact Hcalls|].
  rewrite Hcalls, length_app, !length_map, !length_upTo. reflexivity.
Qed.

(** X7.  For a view-port tile the collision display draws one line for
    each solid edge of the map tile and one rectangle for each attribute
    it has (climbable, ladder, flammable), and nothing at all for a tile
    that the guard rejects. *)
Theorem collision_pass_draws_edges_and_attributes
    (cameraPos : Vector) (m : Map.t) (x y : Z) :
  let col := int_add x (base.x cameraPos) in
  let row := int_add y (base.y cameraPos) in
  length (renderCalls (collisionPassTile cameraPos m x y))
  = if reachesExtent col (Map.width m) || reachesExtent row (Map.height m)
    then 0%nat
    else (solidEdgeCount (Map.collisionData m col row)
          + attributeCount (Map.attributes m col row))%nat.
Proof.
  cbv zeta. unfold collisionPassTile.
  destruct (reachesExtent (int_add x (base.x cameraPos)) (Map.width m)
            || reachesExtent (int_add y (base.y cameraPos)) (Map.height m));
    [reflexivity|].
  unfold solidEdgeCount, attributeCount, isSolidOn.
  cbn [flat_map filter fst snd app].
  destruct (Map.collisionData m _ _ SolidEdge.top),
           (Map.collisionData m _ _ SolidEdge.right),
           (Map.collisionData m _ _ SolidEdge.bottom),
           (Map.collisionData m _ _ SolidEdge.left),
           (isClimbable _), (isLadder _), (isFlammable _);
    reflexivity.
Qed.

End MoreDebuggingFacts.

(** * Further properties of the mode controller *)

Section MoreControllerFacts.
Context `{GT : GameTypes} `{EH : EngineHelpers} `{GS : @GameSystems GT}.

(** X8.  The debug text is shown exactly in the frames in which
    [mShowDebugText] is set, once, after everything else of the frame, and
    it reports the scroll offset, the player position and the player
    velocity as the systems of that frame have left them. *)
Theorem debug_text_reports_the_updated_state
    (dt : TimeDelta) (s s1 : IngameMode) :
  updateAndRenderFrame dt s = Done s1 ->
  if mShowDebugText s then
    exists pos vel,
      playerComponent worldPosition (afterSystems dt s) = Done pos
      /\ playerComponent physical (afterSystems dt s) = Done vel
      /\ callsSince s s1
         = frameCalls (mPlayerInputs s) dt
           ++ [Call.showDebugText
                 (mScrollOffset (mWorld (afterSystems dt s))) pos vel]
  else callsSince s s1 = frameCalls (mPlayerInputs s) dt.
Proof.
  rewrite frame_afterSystems. cbv zeta.
  destruct (calls_of_fold_called (frameCalls (mPlayerInputs s) dt)
              (afterSystems dt s)) as [Hc [Hw Hp]].
  remember (fold_left (fun s c => called c s)
              (frameCalls (mPlayerInputs s) dt) (afterSystems dt s))
    as s0 eqn:Hs0.
  clear Hs0.
  destruct (mShowDebugText s).
  - unfold showDebugText.
    rewrite (playerComponent_ext worldPosition _ _ Hw Hp).
    rewrite (playerComponent_ext physical _ _ Hw Hp).
    destruct (playerComponent worldPosition _) as [pos| |]; cbn [bind];
      try discriminate.
    destruct (playerComponent physical _) as [vel| |]; cbn [bind];
      try discriminate.
    intros H. injection H as <-. exists pos, vel.
    split; [reflexivity|]. split; [reflexivity|].
    apply callsSince_extension. cbn [mCalls called]. rewrite Hc, Hw.
    cbn [mCalls afterSystems withWorld]. rewrite <- app_assoc. reflexivity.
  - intros H. injection H as <-.
    apply callsSince_extension. rewrite Hc. reflexivity.
Qed.

Lemma death_check_violation
    (self : TimeDelta -> IngameMode -> Outcome IngameMode) (t : IngameMode) :
  playerComponent playerControlled t = ContractViolation ->
  checkForPlayerDeath self t = ContractViolation.
Proof.
  intros Hpc. unfold checkForPlayerDeath, playerDead.
  rewrite (playerComponent_ext playerControlled t
             (called Call.checkForPlayerDeath t) eq_refl eq_refl).
  rewrite Hpc. reflexivity.
Qed.

Lemma showDebugText_violation (t : IngameMode) :
  playerComponent worldPosition t = ContractViolation
  \/ playerComponent physical t = ContractViolation ->
  showDebugText t = ContractViolation.
Proof.
  intros Hmissing. unfold showDebugText.
  destruct (playerComponent worldPosition t) as [pos| |] eqn:Hpos;
    cbn [bind]; try reflexivity.
  - destruct Hmissing as [Hcv | Hcv]; [discriminate Hcv|].
    rewrite Hcv. reflexivity.
  - exfalso. exact (playerComponent_no_fuel _ _ Hpos).
Qed.

Lemma showDebugText_keeps_player (t t' : IngameMode) :
  showDebugText t = Done t' ->
  mWorld t' = mWorld t /\ mPlayerEntity t' = mPlayerEntity t.
Proof.
  unfold showDebugText.
  destruct (playerComponent worldPosition t) as [pos| |]; cbn [bind];
    try discriminate.
  destruct (playerComponent physical t) as [vel| |]; cbn [bind];
    try discriminate.
  intros H. injection H as <-. split; reflexivity.
Qed.

Lemma showDebugText_no_fuel (t : IngameMode) : showDebugText t <> OutOfFuel.
Proof.
  unfold showDebugText.
  destruct (playerComponent worldPosition t) as [pos| |] eqn:Hpos;
    cbn [bind]; try discriminate.
  - destruct (playerComponent physical t) as [vel| |] eqn:Hvel;
      cbn [bind]; try discriminate.
    exfalso. exact (playerComponent_no_fuel _ _ Hvel).
  - exfalso. exact (playerComponent_no_fuel _ _ Hpos).
Qed.

(** X9.  A player entity without the components the controller
    dereferences is not tolerated: a call that is not a no-op ends in a
    contract violation when the debug text is on and the player has no
    WorldPosition or no Physical after the systems have run, and, whether
    the debug text is on or not, when the player has no PlayerControlled. *)
Theorem missing_player_components_are_fatal
    (fuel : nat) (dt : TimeDelta) (s : IngameMode) :
  mLevelFinished s = false ->
  (mShowDebugText s = true
   /\ (playerComponent worldPosition (afterSystems dt s) = ContractViolation
       \/ playerComponent physical (afterSystems dt s) = ContractViolation))
  \/ playerComponent playerControlled (afterSystems dt s) = ContractViolation ->
  updateAndRender (S fuel) dt s = ContractViolation.
Proof.
  intros Hflag Hmissing.
  rewrite updateAndRender_S, Hflag.
  pose proof (frame_afterSystems dt s) as Hframe. cbv zeta in Hframe.
  destruct (calls_of_fold_called (frameCalls (mPlayerInputs s) dt)
              (afterSystems dt s)) as [_ [Hw Hp]].
  remember (fold_left (fun s c => called c s)
              (frameCalls (mPlayerInputs s) dt) (afterSystems dt s))
    as s0 eqn:Hs0.
  clear Hs0. rewrite Hframe. clear Hframe.
  destruct (mShowDebugText s) eqn:Htext.
  - destruct (showDebugText s0) as [s1| |] eqn:Hshow; cbn [bind];
      [|reflexivity | exfalso; exact (showDebugText_no_fuel _ Hshow)].
    destruct (showDebugText_keeps_player _ _ Hshow) as [Hw1 Hp1].
    destruct Hmissing as [[_ Hcv] | Hpc].
    + rewrite showDebugText_violation in Hshow; [discriminate Hshow|].
      rewrite (playerComponent_ext worldPosition _ _ Hw Hp).
      rewrite (playerComponent_ext physical _ _ Hw Hp). exact Hcv.
    + rewrite death_check_violation; [reflexivity|].
      rewrite (playerComponent_ext playerControlled s0 s1 Hw1 Hp1).
      rewrite (playerComponent_ext playerControlled _ _ Hw Hp). exact Hpc.
  - destruct Hmissing as [[Hon _] | Hpc]; [discriminate Hon|].
    cbn [bind]. rewrite death_check_violation; [reflexivity|].
    rewrite (playerComponent_ext playerControlled _ _ Hw Hp). exact Hpc.
Qed.

Lemma levelExitCallback_skips (s : IngameMode) (entity : Entity) :
  isLevelExitTrigger entity = false -> levelExitCallback s entity = Done s.
Proof.
  unfold isLevelExitTrigger, levelExitCallback.
  destruct (trigger entity) as [mType|]; [|reflexivity].
  destruct (worldPosition entity) as [pos|]; [|reflexivity].
  intros ->. reflexivity.
Qed.

Lemma eachEntity_exit_skips (es : EntityManager) (s : IngameMode) :
  (forall entity, In entity es -> isLevelExitTrigger entity = false) ->
  eachEntity levelExitCallback es s = Done s.
Proof.
  induction es as [|entity rest IH]; intros Hnone; cbn [eachEntity];
    [reflexivity|].
  rewrite levelExitCallback_skips by (apply Hnone; now left).
  cbn [bind]. apply IH. intros e He. apply Hnone. now right.
Qed.

Lemma eachEntity_exit_violation (es : EntityManager) (s : IngameMode) :
  mLevelFinished s = false ->
  (exists entity, In entity es /\ isLevelExitTrigger entity = true) ->
  playerComponent worldPosition s = ContractViolation
  \/ playerComponent boundingBox s = ContractViolation ->
  eachEntity levelExitCallback es s = ContractViolation.
Proof.
  intros Hflag Hsome Hmissing.
  induction es as [|entity rest IH].
  - destruct Hsome as [e [[] _]].
  - cbn [eachEntity].
    destruct (isLevelExitTrigger entity) eqn:Hexit.
    + unfold levelExitCallback. unfold isLevelExitTrigger in Hexit.
      destruct (trigger entity) as [mType|]; [|discriminate].
      destruct (worldPosition entity) as [pos|]; [|discriminate].
      rewrite Hexit, Hflag. cbn [negb orb].
      destruct (playerComponent worldPosition s) as [ppos| |] eqn:Hpos;
        cbn [bind]; try reflexivity.
      * destruct Hmissing as [Hcv | Hcv]; [discriminate Hcv|].
        rewrite Hcv. reflexivity.
      * exfalso. exact (playerComponent_no_fuel _ _ Hpos).
    + rewrite levelExitCallback_skips by exact Hexit. cbn [bind].
      apply IH. destruct Hsome as [e [[<- | He] Htrue]]; [congruence|].
      exists e. auto.
Qed.

(** X10.  In a level without an entity that carries both a LevelExit
    trigger and a WorldPosition the level-exit check never looks at the
    player: it returns with the state unchanged but for the record of the
    call, even if the player entity is gone. *)
Theorem exit_check_without_exits_is_neutral (s : IngameMode) :
  (forall entity,
      In entity (entities (mWorld s)) -> isLevelExitTrigger entity = false) ->
  checkForLevelExitReached s = Done (called Call.checkForLevelExitReached s).
Proof.
  intros Hnone. unfold checkForLevelExitReached.
  apply eachEntity_exit_skips. exact Hnone.
Qed.

(** X11.  With the flag clear and a level exit among the entities, the
    level-exit check dereferences the player's WorldPosition and
    BoundingBox: when one of them is missing the check ends in a contract
    violation, wherever the exit is. *)
Theorem exit_check_needs_the_player_box (s : IngameMode) :
  mLevelFinished s = false ->
  (exists entity,
      In entity (entities (mWorld s)) /\ isLevelExitTrigger entity = true) ->
  playerComponent worldPosition s = ContractViolation
  \/ playerComponent boundingBox s = ContractViolation ->
  checkForLevelExitReached s = ContractViolation.
Proof.
  intros Hflag Hsome Hmissing. unfold checkForLevelExitReached.
  apply eachEntity_exit_violation; assumption.
Qed.

(** X12.  Fade-outs and fade-ins are balanced: the screen fades of a call
    of [updateAndRender] that returns are some fade-outs followed by as
    many fade-ins, so that the screen is never left faded out. *)
Theorem fades_are_balanced
    (fuel : nat) (dt : TimeDelta) (s s' : IngameMode) :
  updateAndRender fuel dt s = Done s' ->
  exists k, fadesOf (callsSince s s') = repeat true k ++ repeat false k.
Proof.
  intros Hrun. apply updateAndRender_run in Hrun.
  destruct Hrun as [_ [_ [l [Hl [Hnone Hshape]]]]].
  rewrite (callsSince_extension _ _ _ Hl).
  destruct (mLevelFinished s) eqn:Hflag.
  - exists 0%nat. rewrite Hnone by reflexivity. reflexivity.
  - destruct (Hshape eq_refl) as [_ [k [_ [_ Hfades]]]]. eauto.
Qed.

(** X13.  When the death check finds the player alive, the two checks
    leave the world as the systems of the frame have left it: the call
    returns the world of [frameWorld], the same player entity and the same
    settings, and makes no call beyond the frame and the two checks. *)
Theorem living_frame_keeps_the_world_of_the_systems
    (fuel : nat) (dt : TimeDelta) (s s' : IngameMode) :
  mLevelFinished s = false ->
  updateAndRender fuel dt s = Done s' ->
  playerDead (afterSystems dt s) = Done false ->
  mWorld s'
  = frameWorld (mDebuggingSystem s) (mPlayerInputs s) dt (mWorld s)
  /\ mPlayerEntity s' = mPlayerEntity s
  /\ sameSettings s s'
  /\ checksOf (callsSince s s') = [DeathCheck; ExitCheck]
  /\ fadesOf (callsSince s s') = [].
Proof.
  intros Hflag Hrun Halive.
  pose proof (updateAndRender_cases _ _ _ _ Hrun) as Hcases.
  destruct Hcases as [[Htrue _] | [_ [s1 [Hframe Hrest]]]]; [congruence|].
  pose proof (frame_done _ _ _ Hframe) as [dbg [Hs1 _]].
  assert (Hw1 : mWorld s1 = mWorld (afterSystems dt s))
    by (rewrite Hs1; reflexivity).
  assert (Hp1 : mPlayerEntity s1 = mPlayerEntity (afterSystems dt s))
    by (rewrite Hs1; reflexivity).
  rewrite <- (playerDead_ext _ _ Hw1 Hp1) in Halive.
  destruct Hrest as [[_ Hexit] | [Hdead _]]; [|congruence].
  destruct (frame_calls _ _ _ Hframe) as [l1 [Hl1 [_ [Hc1 Hf1]]]].
  destruct (frame_settings _ _ _ Hframe) as [Hset1 _].
  apply exit_check_done in Hexit. destruct Hexit as [b [-> _]].
  split; [exact Hw1|]. split; [exact Hp1|]. split; [exact Hset1|].
  rewrite (callsSince_extension _ _
             (l1 ++ [Call.checkForPlayerDeath;
                     Call.checkForLevelExitReached]))
    by (cbn; rewrite Hl1; repeat rewrite <- app_assoc; reflexivity).
  rewrite checksOf_app, fadesOf_app, Hc1, Hf1. split; reflexivity.
Qed.

(** X14.  A restart discards the play state and nothing else: the world
    in which the forced frame starts has the snapshot of the map, the
    snapshot of the player model and the entities the factory makes of the
    initial actors in an empty manager, so that two states with the same
    snapshots, actors and systems state restart into the same world
    whatever their maps, entities and player models were; the scroll
    offset and what has been rendered are carried over. *)
Theorem restart_discards_the_play_state (s1 s2 : IngameMode) :
  mInitialActors s1 = mInitialActors s2 ->
  mMapAtLevelStart s1 = mMapAtLevelStart s2 ->
  mPlayerModelAtLevelStart s1 = mPlayerModelAtLevelStart s2 ->
  env (mWorld s1) = env (mWorld s2) ->
  let r1 := resetLevelState s1 in
  let r2 := resetLevelState s2 in
  entities (mWorld r1) = entities (mWorld r2)
  /\ mMap (mWorld r1) = mMap (mWorld r2)
  /\ mPlayerModel (mWorld r1) = mPlayerModel (mWorld r2)
  /\ env (mWorld r1) = env (mWorld r2)
  /\ mPlayerEntity r1 = mPlayerEntity r2
  /\ mScrollOffset (mWorld r1) = mScrollOffset (mWorld s1)
  /\ rendered (mWorld r1) = rendered (mWorld s1).
Proof.
  intros Hactors Hmap Hmodel Henv r1 r2. subst r1 r2.
  destruct (resetLevelState_facts s1) as [Hm1 [He1 [Hp1 _]]].
  destruct (resetLevelState_facts s2) as [Hm2 [He2 [Hp2 _]]].
  rewrite Hactors, Henv, <- He2 in He1. injection He1 as Hes Hv Hplayer.
  repeat split; try congruence.
  - destruct s1 as [w player inputs actors map0 model0 finished text d calls].
    unfold resetLevelState. cbn.
    destruct (createEntitiesForLevel actors [] (env w)) as [[es v] p].
    reflexivity.
  - destruct s1 as [w player inputs actors map0 model0 finished text d calls].
    unfold resetLevelState. cbn.
    destruct (createEntitiesForLevel actors [] (env w)) as [[es v] p].
    reflexivity.
Qed.

(** X15.  [updateAndRender] and [restartLevel] call each other without a
    bound: if the frames of a set of states always end with a dead player
    and the restart leads back into the set, no call from such a state
    returns, whatever the depth of calls that is allowed. *)
Theorem restart_without_recovery_never_returns
    (Q : IngameMode -> Prop) :
  (forall s dt,
      Q s ->
      mLevelFinished s = false
      /\ exists s1,
           updateAndRenderFrame dt s = Done s1
           /\ playerDead s1 = Done true
           /\ Q (resetLevelState
                   (called Call.fadeOutScreen
                      (called Call.checkForPlayerDeath s1)))) ->
  forall fuel dt s, Q s -> updateAndRender fuel dt s = OutOfFuel.
Proof.
  intros Hclosed fuel.
  induction fuel as [|fuel IH]; intros dt s HQ; [reflexivity|].
  destruct (Hclosed s dt HQ) as [Hflag [s1 [Hframe [Hdead HQ']]]].
  rewrite updateAndRender_S, Hflag, Hframe. cbn [bind].
  unfold checkForPlayerDeath. rewrite playerDead_called, Hdead. cbn [bind].
  unfold restartLevel. rewrite (IH zeroDelta _ HQ'). reflexivity.
Qed.

(** X16.  [handleEvent] changes the input flags and the debug toggles
    and nothing else: the world, the player entity, the level-finished
    flag, the snapshots, the initial actors and the record of calls stay
    as they are, and so does the grid display, for which no key exists. *)
Theorem handleEvent_touches_inputs_and_toggles_only
    (event : SDL_Event) (s : IngameMode) :
  mWorld (handleEvent event s) = mWorld s
  /\ mPlayerEntity (handleEvent event s) = mPlayerEntity s
  /\ mLevelFinished (handleEvent event s) = mLevelFinished s
  /\ mInitialActors (handleEvent event s) = mInitialActors s
  /\ mMapAtLevelStart (handleEvent event s) = mMapAtLevelStart s
  /\ mPlayerModelAtLevelStart (handleEvent event s)
     = mPlayerModelAtLevelStart s
  /\ mCalls (handleEvent event s) = mCalls s
  /\ mShowGrid (mDebuggingSystem (handleEvent event s))
     = mShowGrid (mDebuggingSystem s).
Proof.
  destruct event as [type key].
  destruct type, key; repeat split.
Qed.

Lemma handleEvent_snapshots (event : SDL_Event) (s : IngameMode) :
  mInitialActors (handleEvent event s) = mInitialActors s
  /\ mMapAtLevelStart (handleEvent event s) = mMapAtLevelStart s
  /\ mPlayerModelAtLevelStart (handleEvent event s)
     = mPlayerModelAtLevelStart s
  /\ mShowGrid (mDebuggingSystem (handleEvent event s))
     = mShowGrid (mDebuggingSystem s).
Proof.
  destruct event as [type key].
  destruct type, key; repeat split.
Qed.

(** X17.  Nothing the owner of the mode can ask for changes what a
    restart restores: after every sequence of [handleEvent] and
    [updateAndRender] calls, restarts included, the initial actors and the
    snapshots of the map and of the player model are the ones the sequence
    started with, and the grid display is as it was. *)
Theorem snapshots_survive_every_run
    (fuel : nat) (rs : list Request) (s s' : IngameMode) :
  serveAll fuel rs s = Done s' ->
  mInitialActors s' = mInitialActors s
  /\ mMapAtLevelStart s' = mMapAtLevelStart s
  /\ mPlayerModelAtLevelStart s' = mPlayerModelAtLevelStart s
  /\ mShowGrid (mDebuggingSystem s') = mShowGrid (mDebuggingSystem s).
Proof.
  revert s. induction rs as [|r rest IH]; intros s Hrun; cbn in Hrun.
  - injection Hrun as <-. repeat split.
  - destruct (serve fuel r s) as [s1| |] eqn:Hserve; cbn in Hrun;
      try discriminate.
    apply IH in Hrun. destruct Hrun as [Ha [Hm [Hp Hg]]].
    destruct r as [event | dt]; cbn in Hserve.
    + injection Hserve as <-.
      destruct (handleEvent_snapshots event s) as [Ha1 [Hm1 [Hp1 Hg1]]].
      repeat split; congruence.
    + apply updateAndRender_run in Hserve. destruct Hserve as [Hset _].
      unfold sameSettings, settings in Hset.
      injection Hset as _ Hd _ Ha1 Hm1 Hp1.
      repeat split; congruence.
Qed.

(** X18.  The debug toggles fire on key-up only: an event that is not the
    release of b, c or d leaves the three displays and the debug text as
    they are; the release of one of these keys changes the state, and a
    second release of the same key restores it exactly. *)
Theorem debug_keys_fire_on_release_only
    (event : SDL_Event) (s : IngameMode) :
  (event_type event <> SDL_KEYUP \/ isDebugKey (keysym_sym event) = false ->
   mDebuggingSystem (handleEvent event s) = mDebuggingSystem s
   /\ mShowDebugText (handleEvent event s) = mShowDebugText s)
  /\ (event_type event = SDL_KEYUP ->
      isDebugKey (keysym_sym event) = true ->
      handleEvent event s <> s
      /\ handleEvent event (handleEvent event s) = s).
Proof.
  destruct event as [type key]. cbn [event_type keysym_sym]. split.
  - intros Hnot.
    destruct type, key; cbn in Hnot; try (split; reflexivity);
      destruct Hnot as [Hnot | Hnot]; congruence.
  - intros -> Hkey.
    destruct s as [w player inputs actors map0 model0 finished text d calls].
    destruct d as [boxes collision grid].
    destruct key; try discriminate Hkey;
      destruct boxes, collision, text;
      (split;
       [ intros Heq;
         apply (f_equal (fun t => (mDebuggingSystem t, mShowDebugText t)))
           in Heq;
         vm_compute in Heq; discriminate Heq
       | vm_compute; reflexivity ]).
Qed.

Lemma handleEvent_sets_bound_flag
    (f : InputFlag.t) (event : SDL_Event) (s : IngameMode) :
  isKeyEvent event = true ->
  keyBinding (keysym_sym event) = Some f ->
  getFlag f (mPlayerInputs (handleEvent event s))
  = isKeyDown (event_type event).
Proof.
  destruct event as [type key]. unfold isKeyEvent. cbn [event_type keysym_sym].
  intros Hkey Hbound.
  destruct type; try discriminate Hkey;
    destruct key; try discriminate Hbound;
    injection Hbound as <-; reflexivity.
Qed.

Lemma handleEvent_keeps_other_flags
    (f : InputFlag.t) (event : SDL_Event) (s : IngameMode) :
  isKeyEvent event = false \/ keyBinding (keysym_sym event) <> Some f ->
  getFlag f (mPlayerInputs (handleEvent event s))
  = getFlag f (mPlayerInputs s).
Proof.
  destruct event as [type key]. unfold isKeyEvent. cbn [event_type keysym_sym].
  intros Hother.
  destruct type, key, f; try reflexivity;
    destruct Hother as [Hother | Hother];
    first [discriminate Hother | exfalso; apply Hother; reflexivity].
Qed.

Lemma handleEvents_snoc (events : list SDL_Event) (event : SDL_Event)
    (s : IngameMode) :
  handleEvents (events ++ [event]) s
  = handleEvent event (handleEvents events s).
Proof. unfold handleEvents. rewrite fold_left_app. reflexivity. Qed.

(** X19.  The input flags are level-triggered and independent: after any
    sequence of events a flag has the value of the last key event for a
    key bound to it ([true] for key-down, [false] for key-up, whatever it
    was before), and events for other keys or of other kinds do not touch
    it.  Both Ctrl keys are bound to jumping and both Alt keys to shooting,
    so the release of one of a pair clears the flag even while the other
    is held. *)
Theorem input_flags_follow_the_last_key_event
    (f : InputFlag.t) (events : list SDL_Event) (s : IngameMode) :
  (forall event,
      isKeyEvent event = true ->
      keyBinding (keysym_sym event) = Some f ->
      getFlag f (mPlayerInputs (handleEvents (events ++ [event]) s))
      = isKeyDown (event_type event))
  /\ ((forall event,
          In event events ->
          isKeyEvent event = false
          \/ keyBinding (keysym_sym event) <> Some f) ->
      getFlag f (mPlayerInputs (handleEvents events s))
      = getFlag f (mPlayerInputs s))
  /\ (f = InputFlag.Jumping ->
      getFlag f
        (mPlayerInputs
           (handleEvents
              (events ++ [mkEvent SDL_KEYDOWN SDLK_LCTRL;
                          mkEvent SDL_KEYDOWN SDLK_RCTRL;
                          mkEvent SDL_KEYUP SDLK_LCTRL]) s))
      = false).
Proof.
  split; [|split].
  - intros event Hkey Hbound. rewrite handleEvents_snoc.
    apply handleEvent_sets_bound_flag; assumption.
  - revert s. induction events as [|event rest IH] using rev_ind;
      intros s Hother; [reflexivity|].
    rewrite handleEvents_snoc.
    rewrite handleEvent_keeps_other_flags
      by (apply Hother; apply in_or_app; right; now left).
    apply IH. intros e He. apply Hother. apply in_or_app. now left.
  - intros ->.
    replace (events ++ [mkEvent SDL_KEYDOWN SDLK_LCTRL;
                        mkEvent SDL_KEYDOWN SDLK_RCTRL;
                        mkEvent SDL_KEYUP SDLK_LCTRL])
      with ((events ++ [mkEvent SDL_KEYDOWN SDLK_LCTRL;
                        mkEvent SDL_KEYDOWN SDLK_RCTRL])
            ++ [mkEvent SDL_KEYUP SDLK_LCTRL])
      by (rewrite <- app_assoc; reflexivity).
    rewrite handleEvents_snoc.
    apply (handleEvent_sets_bound_flag InputFlag.Jumping
             (mkEvent SDL_KEYUP SDLK_LCTRL)); reflexivity.
Qed.

End MoreControllerFacts.

(** * The further properties on concrete inputs *)

Section MoreDemoFacts.
#[local] Existing Instance demoTypes.
#[local] Existing Instance demoHelpers.
#[local] Existing Instance demoSystems.
Import String.

Lemma levelFileName_on_and_off_range_witness :
  levelFileName 1 2 = Done "M3.MNI"%string
  /\ levelFileName 1 8 = ContractViolation.
Proof.
  split.
  - destruct (levelFileName_on_and_off_range 1 2)
      as [[_ [_ [prefix [Hprefix Hname]]]] | [Hoff _]].
    + injection Hprefix as <-. exact Hname.
    + exfalso. apply Hoff. lia.
  - destruct (levelFileName_on_and_off_range 1 8)
      as [[_ [Hlevel _]] | [_ Hname]].
    + exfalso. lia.
    + exact Hname.
Defined.

Lemma file_names_do_not_collide_witness :
  levelFileName 0 0 <> Done "LOAD1.MNI"%string.
Proof.
  destruct file_names_do_not_collide as [_ [_ Hdisjoint]].
  apply (Hdisjoint 0 0 0 "LOAD1.MNI"%string). reflexivity.
Defined.

Lemma vec2String_has_fixed_width_witness :
  String.length (vec2String (mkVector 12 (-7)) 4) = 10%nat.
Proof.
  destruct (vec2String_has_fixed_width (mkVector 12 (-7)) 4) as [_ Hfixed].
  apply Hfixed; [reflexivity | cbn; lia | cbn; lia].
Defined.

Lemma collision_pass_reads_the_viewport_window_witness :
  In (QueryAttributes 63 31)
     (DebuggingSystem_update demoOverlays (mkVector 40 20) (demoMap 64 32)
        [])
  /\ ~ In (QueryAttributes 64 31)
          (DebuggingSystem_update demoOverlays (mkVector 40 20)
             (demoMap 64 32) []).
Proof.
  destruct (collision_pass_reads_the_viewport_window demoOverlays
              (mkVector 40 20) (demoMap 64 32) []) as [_ Hwindow].
  assert (Hx : INT_MIN <= x (mkVector 40 20))
    by (unfold INT_MIN; cbn; lia).
  assert (Hxw : x (mkVector 40 20) + mapViewPortWidthTiles <= INT_MAX + 1)
    by (unfold INT_MAX; cbn; lia).
  assert (Hy : INT_MIN <= y (mkVector 40 20))
    by (unfold INT_MIN; cbn; lia).
  assert (Hyh : y (mkVector 40 20) + mapViewPortHeightTiles <= INT_MAX + 1)
    by (unfold INT_MAX; cbn; lia).
  split.
  - pose proof (Hwindow Hx Hxw Hy Hyh 63 31) as Hread.
    cbv zeta in Hread. destruct Hread as [_ [Hattributes _]].
    apply Hattributes. split; [reflexivity|]. cbn. repeat split; lia.
  - pose proof (Hwindow Hx Hxw Hy Hyh 64 31) as Hread.
    cbv zeta in Hread. destruct Hread as [_ [Hattributes _]].
    intros Hin. apply Hattributes in Hin.
    destruct Hin as [_ [_ [_ [Hguard _]]]]. discriminate Hguard.
Defined.

Lemma bounding_box_pass_draws_only_entities_witness :
  List.length (renderCalls (boundingBoxPass (mkVector 0 0) demoEntities))
  = 4%nat.
Proof.
  destruct (bounding_box_pass_draws_only_entities (mkVector 0 0) demoEntities)
    as [Hcount _].
  exact Hcount.
Defined.

Lemma demoShown_run : updateAndRenderFrame 16 demoTextPlayer = Done demoShown.
Proof. vm_compute. reflexivity. Qed.

Lemma debug_text_reports_the_updated_state_witness :
  exists pos vel,
    callsSince demoTextPlayer demoShown
    = frameCalls demoInputs 16
      ++ [Call.showDebugText (mkVector 3 4) pos vel].
Proof.
  pose proof (debug_text_reports_the_updated_state (GT := demoTypes) 16
                demoTextPlayer demoShown demoShown_run) as Hshown.
  destruct Hshown as [pos [vel [_ [_ Hcalls]]]].
  exists pos, vel. exact Hcalls.
Defined.

Lemma demoTextStill_no_velocity :
  playerComponent physical (afterSystems 16 demoTextStill)
  = ContractViolation.
Proof. vm_compute. reflexivity. Qed.

Lemma missing_player_components_are_fatal_witness :
  updateAndRender 1 16 demoTextStill = ContractViolation.
Proof.
  apply (missing_player_components_are_fatal (GT := demoTypes) 0 16
           demoTextStill eq_refl).
  left. split; [reflexivity|]. right. exact demoTextStill_no_velocity.
Defined.

Lemma exit_check_without_exits_is_neutral_witness :
  checkForLevelExitReached demoNoExits
  = Done (called Call.checkForLevelExitReached demoNoExits).
Proof.
  apply (exit_check_without_exits_is_neutral demoNoExits).
  intros entity [<- | []]. reflexivity.
Defined.

Lemma exit_check_needs_the_player_box_witness :
  checkForLevelExitReached demoExitNoBox = ContractViolation.
Proof.
  apply (exit_check_needs_the_player_box demoExitNoBox eq_refl).
  - exists (demoExit 1 (mkVector 40 5)).
    split; [right; left; reflexivity | reflexivity].
  - left. reflexivity.
Defined.

Lemma fades_are_balanced_witness :
  exists k,
    fadesOf (callsSince demoDeadAtExit demoRestarted)
    = repeat true k ++ repeat false k.
Proof.
  exact (fades_are_balanced (GT := demoTypes) 2 16 demoDeadAtExit
           demoRestarted demoRestarted_run).
Defined.

Lemma demoAtExit_alive : playerDead (afterSystems 16 demoAtExit) = Done false.
Proof. vm_compute. reflexivity. Qed.

Lemma living_frame_keeps_the_world_of_the_systems_witness :
  mPlayerEntity demoExited = 0%nat
  /\ checksOf (callsSince demoAtExit demoExited) = [DeathCheck; ExitCheck].
Proof.
  destruct (living_frame_keeps_the_world_of_the_systems (GT := demoTypes)
              1 16 demoAtExit demoExited eq_refl demoExited_run
              demoAtExit_alive) as [_ [Hplayer [_ [Hchecks _]]]].
  split; [exact Hplayer | exact Hchecks].
Defined.

Lemma restart_discards_the_play_state_witness :
  entities (mWorld (resetLevelState demoPlayed))
  = entities (mWorld (resetLevelState demoAtExit))
  /\ mScrollOffset (mWorld (resetLevelState demoPlayed)) = mkVector 20 6.
Proof.
  destruct (restart_discards_the_play_state demoPlayed demoAtExit
              eq_refl eq_refl eq_refl eq_refl)
    as [Hentities [_ [_ [_ [_ [Hscroll _]]]]]].
  split; [exact Hentities | exact Hscroll].
Defined.

Lemma demoServed_run : serveAll 2 demoRequests demoDeadAtExit = Done demoServed.
Proof. vm_compute. reflexivity. Qed.

Lemma snapshots_survive_every_run_witness :
  mInitialActors demoServed = mInitialActors demoDeadAtExit
  /\ mMapAtLevelStart demoServed = demoMap 64 32
  /\ mPlayerModelAtLevelStart demoServed = 9
  /\ mShowGrid (mDebuggingSystem demoServed) = false.
Proof.
  exact (snapshots_survive_every_run 2 demoRequests demoDeadAtExit demoServed
           demoServed_run).
Defined.

Lemma debug_keys_fire_on_release_only_witness :
  handleEvent (mkEvent SDL_KEYUP SDLK_c)
    (handleEvent (mkEvent SDL_KEYUP SDLK_c) demoAtExit)
  = demoAtExit.
Proof.
  destruct (debug_keys_fire_on_release_only (mkEvent SDL_KEYUP SDLK_c)
              demoAtExit) as [_ Hrelease].
  destruct (Hrelease eq_refl eq_refl) as [_ Hback]. exact Hback.
Defined.

Lemma input_flags_follow_the_last_key_event_witness :
  mShooting
    (mPlayerInputs
       (handleEvents
          [mkEvent SDL_KEYDOWN SDLK_LALT; mkEvent SDL_KEYDOWN SDLK_LEFT;
           mkEvent SDL_KEYUP SDLK_RALT]
          demoAtExit))
  = false.
Proof.
  destruct (input_flags_follow_the_last_key_event InputFlag.Shooting
              [mkEvent SDL_KEYDOWN SDLK_LALT; mkEvent SDL_KEYDOWN SDLK_LEFT]
              demoAtExit) as [Hlast _].
  exact (Hlast (mkEvent SDL_KEYUP SDLK_RALT) eq_refl eq_refl).
Defined.

End MoreDemoFacts.

Section DoomedFacts.
#[local] Existing Instance demoTypes.
#[local] Existing Instance demoHelpers.
#[local] Existing Instance doomedSystems.

(** In the doomed level every frame ends with the player dead, and the
    restart recreates the same situation. *)
Lemma doomed_is_closed (s : IngameMode) (dt : TimeDelta) :
  doomed s ->
  mLevelFinished s = false
  /\ exists s1,
       updateAndRenderFrame dt s = Done s1
       /\ playerDead s1 = Done true
       /\ doomed (resetLevelState
                    (called Call.fadeOutScreen
                       (called Call.checkForPlayerDeath s1))).
Proof.
  destruct s as [w player inputs actors map0 model0 finished text d calls].
  destruct w as [es m model scroll drawn v].
  unfold doomed. cbn [mLevelFinished mShowDebugText entities mWorld
    mPlayerEntity mPlayerModel mInitialActors mPlayerModelAtLevelStart].
  intros [-> [-> [-> [-> [-> [-> ->]]]]]].
  split; [reflexivity|].
  rewrite frame_unfolded. cbv zeta.
  eexists. split; [reflexivity|].
  split; [reflexivity|].
  repeat split.
Qed.

Lemma doomedMode_is_doomed : doomed doomedMode.
Proof. repeat split. Qed.

Lemma restart_without_recovery_never_returns_witness :
  updateAndRender 1000 16 doomedMode = OutOfFuel.
Proof.
  apply (restart_without_recovery_never_returns doomed doomed_is_closed).
  exact doomedMode_is_doomed.
Defined.

End DoomedFacts.
